(** * lotto-action: the ticket lifecycle orchestrator of [src/index.ts]

    A shallow embedding of [run], [runActionsEnvironments], [runInitRepo],
    [runWinningCheck] and [runPurchase], with the collaborators they call
    ([@actions/core], the issue helpers, the body codec and the
    [LottoService]) gathered in a record of oracles, and the properties of
    the orchestrator proved over it. *)

From Stdlib Require Import ZArith QArith String Ascii List Bool Lia.
From stdpp Require Import base tactics option list.
Import ListNotations.

Close Scope Q_scope.
Local Open Scope string_scope.
Local Open Scope list_scope.
Local Open Scope Z_scope.

(** ** JavaScript numbers and [Number(string)] *)

Module Js.

(** A JavaScript number.  Finite values are kept as exact rationals in
    lowest terms: the binary64 rounding of a literal is not applied, and
    the two zeros are one value (both are falsy, which is all the program
    observes of them). *)
Inductive number :=
| NaN
| PosInf
| NegInf
| Num (q : Q).

Definition ofZ (z : Z) : number := Num (inject_Z z).

(** [m * 10^e] in lowest terms: the mathematical value of a decimal
    literal with digits [m] and decimal exponent [e]. *)
Definition scale (m e : Z) : Q :=
  if 0 <=? e then inject_Z (m * 10 ^ e)
  else Qred (Qmake m (Z.to_pos (10 ^ (- e)))).

Definition negate (n : number) : number :=
  match n with
  | NaN => NaN
  | PosInf => NegInf
  | NegInf => PosInf
  | Num q => Num (Qred (Qopp q))
  end.

(** ToBoolean on a number: [NaN] and zero are falsy. *)
Definition truthy (n : number) : bool :=
  match n with
  | NaN => false
  | Num q => negb (Qnum q =? 0)
  | _ => true
  end.

(** [a || b] on numbers. *)
Definition logicalOr (a b : number) : number := if truthy a then a else b.

(** [a <= b] for two numbers that are not [NaN]. *)
Definition leb (a b : number) : bool :=
  match a, b with
  | NegInf, _ => true
  | _, PosInf => true
  | Num p, Num q => Qle_bool p q
  | _, _ => false
  end.

(** [Math.min] and [Math.max] of two arguments: [NaN] is contagious. *)
Definition Math_min (a b : number) : number :=
  match a, b with
  | NaN, _ | _, NaN => NaN
  | _, _ => if leb a b then a else b
  end.

Definition Math_max (a b : number) : number :=
  match a, b with
  | NaN, _ | _, NaN => NaN
  | _, _ => if leb a b then b else a
  end.

(** *** StringToNumber *)

Definition code (c : ascii) : Z := Z.of_N (N_of_ascii c).

(** The ASCII members of StrWhiteSpaceChar (TAB, LF, VT, FF, CR, SP). *)
Definition isWhiteSpace (c : ascii) : bool :=
  let n := code c in
  (n =? 9) || (n =? 10) || (n =? 11) || (n =? 12) || (n =? 13) || (n =? 32).

Fixpoint dropWhile {A} (p : A -> bool) (l : list A) : list A :=
  match l with
  | x :: l' => if p x then dropWhile p l' else l
  | [] => []
  end.

Definition trim (l : list ascii) : list ascii :=
  rev (dropWhile isWhiteSpace (rev (dropWhile isWhiteSpace l))).

(** The value of [c] as a digit of the given base, if it is one. *)
Definition digitOf (base : Z) (c : ascii) : option Z :=
  let n := code c in
  let v := if (48 <=? n) && (n <=? 57) then n - 48
           else if (97 <=? n) && (n <=? 102) then n - 87
           else if (65 <=? n) && (n <=? 70) then n - 55
           else 16 in
  if v <? base then Some v else None.

(** Reads the longest run of digits at the head of [l]: the value
    accumulated on top of [acc], the number of digits read, the rest. *)
Fixpoint digits (base acc : Z) (cnt : Z) (l : list ascii) : Z * Z * list ascii :=
  match l with
  | c :: l' =>
      match digitOf base c with
      | Some d => digits base (acc * base + d) (cnt + 1) l'
      | None => (acc, cnt, l)
      end
  | [] => (acc, cnt, [])
  end.

Definition isChar (c : ascii) (s : string) : bool :=
  existsb (fun d => code c =? code d) (list_ascii_of_string s).

Definition isNil {A} (l : list A) : bool :=
  match l with [] => true | _ => false end.

(** An optional sign: whether it is a minus, and the rest. *)
Definition sign (l : list ascii) : bool * list ascii :=
  match l with
  | c :: l' => if isChar c "-" then (true, l')
               else if isChar c "+" then (false, l') else (false, l)
  | [] => (false, [])
  end.

(** ExponentPart, or nothing; [None] when what is left is neither. *)
Definition exponentPart (l : list ascii) : option Z :=
  match l with
  | [] => Some 0
  | c :: l1 =>
      if isChar c "eE" then
        let '(neg, l2) := sign l1 in
        let '(n, cnt, rest) := digits 10 0 0 l2 in
        if (0 <? cnt) && isNil rest then Some (if neg then - n else n) else None
      else None
  end.

(** StrUnsignedDecimalLiteral. *)
Definition unsignedDecimal (l : list ascii) : number :=
  if String.eqb (string_of_list_ascii l) "Infinity" then PosInf else
  let '(ip, icnt, l1) := digits 10 0 0 l in
  let '(m, fcnt, l2) :=
    match l1 with
    | c :: l1' => if isChar c "." then digits 10 ip 0 l1' else (ip, 0, l1)
    | [] => (ip, 0, l1)
    end in
  if (icnt =? 0) && (fcnt =? 0) then NaN else
  match exponentPart l2 with
  | Some e => Num (scale m (e - fcnt))
  | None => NaN
  end.

(** NonDecimalIntegerLiteral: [0b], [0o], [0x] and their digits. *)
Definition nonDecimal (l : list ascii) : option number :=
  match l with
  | z :: p :: l' =>
      if isChar z "0" then
        let base := if isChar p "bB" then 2
                    else if isChar p "oO" then 8
                    else if isChar p "xX" then 16 else 0 in
        if base =? 0 then None else
        let '(n, cnt, rest) := digits base 0 0 l' in
        Some (if (0 <? cnt) && isNil rest then ofZ n else NaN)
      else None
  | _ => None
  end.

(** [Number(s)] for a string [s]. *)
Definition Number (s : string) : number :=
  let l := trim (list_ascii_of_string s) in
  if isNil l then ofZ 0 else
  match nonDecimal l with
  | Some n => n
  | None =>
      let '(neg, l') := sign l in
      let n := unsignedDecimal l' in
      if neg then negate n else n
  end.

End Js.


(** ** Thrown values and results *)

(** What a [throw] carries: an instance of [Error] with its [name] and
    [message], or any other value, kept by its string conversion. *)
Inductive thrown :=
| JsError (name message : string)
| NonError (v : string).

(** [e instanceof Error] *)
Definition instanceofError (e : thrown) : bool :=
  match e with JsError _ _ => true | NonError _ => false end.

(** [e.message] of an [Error] *)
Definition message (e : thrown) : string :=
  match e with JsError _ m => m | NonError _ => "" end.

(** The string conversion of the template literals: Error.prototype.toString *)
Definition toString (e : thrown) : string :=
  match e with
  | JsError n m =>
      if String.eqb n "" then m
      else if String.eqb m "" then n
      else (n ++ ": " ++ m)%string
  | NonError v => v
  end.

Inductive result (A : Type) :=
| Ok (a : A)
| Throw (e : thrown).
Arguments Ok {A} a.
Arguments Throw {A} e.

Definition isOk {A} (r : result A) : bool :=
  match r with Ok _ => true | Throw _ => false end.

(** ** Data model *)

(** One purchased combination of numbers. *)
Definition combination := list Z.
Definition label := string.

Inductive lifecycle :=
| Awaiting
| Checked (rankLabels : list label).

(** A ticket, as the issue that records it: [issue.number] and
    [issue.body] are what [runWinningCheck] reads. *)
Record issue := {
  number : Z;
  title : string;
  body : option string;
  status : lifecycle
}.

Inductive inputKey := lottoId | lottoPassword | lottoPurchaseAmount.

(** The operations the program awaits. *)
Inductive call :=
| InitLabels
| InstallBrowser
| SignIn (id pwd : string)
| GetWaitingIssues
| Check (numbers : combination) (round : Z)
| MarkIssueAsChecked (number : Z) (labels : list label)
| Purchase (amount : Js.number)
| CreateWaitingIssue (date body : string)
| Destroy.

(** The lines passed to [core.info], by the source line that logs them. *)
Inductive line :=
| RunFailed (e : string)        (* line 24 *)
| SettingUp                     (* line 32 *)
| CheckingResults               (* line 59 *)
| CheckingCount (n : nat)       (* line 63 *)
| CheckErrors (n : nat)         (* line 83 *)
| NothingToCheck                (* line 86 *)
| Purchasing                    (* line 91 *)
| Purchased                     (* line 99 *)
| CreatingIssue                 (* line 104 *)
| IssueCreated                  (* line 107 *)
| PurchaseFailed (e : string).  (* line 112 *)

Inductive event :=
| Info (m : line)                (* core.info *)
| SetFailed (msg : string)       (* core.setFailed *)
| Exit (code : Z)                (* process.exit *)
| NewLottoService                (* new LottoService({...}) *)
| BodyParser (text : string)     (* bodyParser(issue.body) *)
| Start (c : call)               (* an awaited operation is called *)
| Finish (c : call) (ok : bool). (* and its promise settles *)

(** The collaborators, one oracle each: what a call returns or throws is
    a function of its arguments for the length of one run.  For the three
    store operations whose effect on the store is modelled below, the
    oracle only says whether the call succeeds.  [schedule] is the order
    in which the operations in flight settle: [schedule k] picks, among
    those in flight when the fan-out has at most [k] turns to go, the one
    that settles next; any order is some schedule. *)
Record World := {
  (* @actions/core *)
  getInput : inputKey -> string;
  (* ./internal/issues *)
  initLabels : result unit;
  listing : result unit;
  rankToLabel : Z -> label;
  marking : Z -> list label -> result unit;
  creating : string -> string -> result unit;
  (* ./internal/installBrowser *)
  installBrowser : result unit;
  (* @rich-automation/lotto *)
  newLottoService : result unit;
  signIn : string -> string -> result unit;
  check : combination -> Z -> result Z;
  purchase : Js.number -> result (list combination);
  getCheckWinningLink : Z -> list combination -> result string;
  destroy : result unit;
  getCurrentLottoRound : result Z;
  (* ./internal/bodyHandlers *)
  bodyParser : string -> result (list combination * Z);
  bodyBuilder : string -> Z -> list combination -> string -> result string;
  (* dayjs.tz(dayjs(), 'Asia/Seoul').format('YYYY-MM-DD') *)
  today : string;
  (* the event loop *)
  schedule : nat -> nat
}.

(** The state of a run: the Ticket Store, what has happened so far
    (oldest first), [process.exitCode], the status the process has exited
    with, and the operations that have been called, that nobody awaits
    any more and that have not settled. *)
Record state := {
  store : list issue;
  trace : list event;
  exitCode : option Z;
  exited : option Z;
  inflight : list call
}.

(** ** A state and exception monad *)

Definition M (A : Type) : Type := state -> result A * state.

Definition ret {A} (a : A) : M A := fun st => (Ok a, st).

Definition bind {A B} (m : M A) (k : A -> M B) : M B :=
  fun st =>
    match m st with
    | (Ok a, st') => k a st'
    | (Throw e, st') => (Throw e, st')
    end.

(** [try { m } catch (e) { handler e }] *)
Definition try {A} (m : M A) (handler : thrown -> M A) : M A :=
  fun st =>
    match m st with
    | (Ok a, st') => (Ok a, st')
    | (Throw e, st') => handler e st'
    end.

(** A synchronous call of a collaborator. *)
Definition lift {A} (r : result A) : M A := fun st => (r, st).

Declare Scope m_scope.
Delimit Scope m_scope with M.
Notation "x <- m ;; k" := (bind m (fun x => k))
  (at level 100, m at next level, right associativity) : m_scope.
Notation "m ;; k" := (bind m (fun _ => k))
  (at level 100, right associativity) : m_scope.

Definition record (evs : list event) (st : state) : state :=
  {| store := store st; trace := trace st ++ evs; exitCode := exitCode st;
     exited := exited st; inflight := inflight st |}.

Definition setStore (s : list issue) (st : state) : state :=
  {| store := s; trace := trace st; exitCode := exitCode st;
     exited := exited st; inflight := inflight st |}.

Definition log (ev : event) : M unit := fun st => (Ok tt, record [ev] st).

(** [core.info(m)] *)
Definition info (m : line) : M unit := log (Info m).

(** [core.setFailed(msg)]: sets [process.exitCode] to 1 and reports [msg]. *)
Definition setFailed (msg : string) : M unit :=
  fun st =>
    (Ok tt, {| store := store st; trace := trace st ++ [SetFailed msg];
               exitCode := Some 1; exited := exited st;
               inflight := inflight st |}).

(** [process.exit(code)] *)
Definition exit (code : Z) (st : state) : state :=
  {| store := store st; trace := trace st ++ [Exit code];
     exitCode := exitCode st; exited := Some code; inflight := inflight st |}.

(** [await c]: the operation is called and the caller resumes when its
    promise has settled, with its value or its rejection. *)
Definition await {A} (c : call) (r : result A) : M A :=
  fun st => (r, record [Start c; Finish c (isOk r)] st).

(** ** The Ticket Store *)

Definition isAwaiting (i : issue) : bool :=
  match status i with Awaiting => true | Checked _ => false end.

(** Modelled from the spec: [getWaitingIssues] of ./internal/issues is not
    under src/.  "listAwaitingTickets() -> sequence<Ticket>": the tickets
    of the store that are Awaiting. *)
Definition awaiting (s : list issue) : list issue := List.filter isAwaiting s.

(** Modelled from the spec: [markIssueAsChecked] of ./internal/issues is
    not under src/.  "markChecked(ticketId, labelSet)": the ticket with
    that id is transitioned to Checked, with the label set attached. *)
Definition markChecked (n : Z) (labels : list label) (s : list issue) : list issue :=
  map (fun i => if number i =? n
                then {| number := number i; title := title i; body := body i;
                        status := Checked labels |}
                else i) s.

Definition nextNumber (s : list issue) : Z :=
  1 + fold_right Z.max 0 (map number s).

(** Modelled from the spec: [createWaitingIssue] of ./internal/issues is
    not under src/.  "createTicket(date, bodyText)": a new Awaiting
    ticket under an id of the store's choosing. *)
Definition addWaiting (date text : string) (s : list issue) : list issue :=
  s ++ [{| number := nextNumber s; title := date; body := Some text;
           status := Awaiting |}].

(** The status of ticket [n] in the store. *)
Definition statusOf (n : Z) (s : list issue) : option lifecycle :=
  option_map status (List.find (fun i => number i =? n) s).

(** ** The fan-out of [runWinningCheck] *)

(** One call of [service.check] made by a ticket's pipeline: in flight,
    resolved with a rank, or rejected. *)
Inductive slot :=
| Pending (numbers : combination) (round : Z)
| Got (rank : Z)
| Failed.

(** The promise of one [async issue => { ... }]:
    - [Checking]: suspended at [await Promise.all(checkPromises)];
    - [Marking]: suspended at [await markIssueAsChecked(...)];
    - [Settled]: fulfilled or rejected; [slots] still lists the check
      calls of the ticket, some of which can be in flight when
      [Promise.all] has rejected at the first failure. *)
Inductive pipeline :=
| Checking (number : Z) (slots : list slot)
| Marking (number : Z) (labels : list label)
| Settled (outcome : result unit) (slots : list slot).

Definition settled (p : pipeline) : bool :=
  match p with Settled _ _ => true | _ => false end.

Definition outcomeOf (p : pipeline) : option (result unit) :=
  match p with Settled r _ => Some r | _ => None end.

Definition isPending (s : slot) : bool :=
  match s with Pending _ _ => true | _ => false end.

(** The ranks of the slots when every one of them has resolved. *)
Fixpoint ranksOf (slots : list slot) : option (list Z) :=
  match slots with
  | [] => Some []
  | Got r :: slots' => option_map (cons r) (ranksOf slots')
  | _ :: _ => None
  end.

(** [[...new Set(l)]]: the first occurrence of every member, in order. *)
Fixpoint setOf (l : list label) : list label :=
  match l with
  | [] => []
  | x :: l' => x :: List.filter (fun y => negb (String.eqb x y)) (setOf l')
  end.

(** The positions of the slots in flight, counted from [k]. *)
Fixpoint pendingFrom (k : nat) (slots : list slot) : list nat :=
  match slots with
  | [] => []
  | s :: slots' =>
      if isPending s then k :: pendingFrom (S k) slots'
      else pendingFrom (S k) slots'
  end.

(** The operations of a pipeline that are in flight, by position. *)
Definition callsOf (p : pipeline) : list nat :=
  match p with
  | Checking _ slots => pendingFrom 0 slots
  | Marking _ _ => [0%nat]
  | Settled _ slots => pendingFrom 0 slots
  end.

(** All operations in flight: (pipeline, position). *)
Fixpoint inflightFrom (i : nat) (ps : list pipeline) : list (nat * nat) :=
  match ps with
  | [] => []
  | p :: ps' => map (pair i) (callsOf p) ++ inflightFrom (S i) ps'
  end.

(** The operations of a pipeline that are in flight, as calls. *)
Definition orphansOf (p : pipeline) : list call :=
  match p with
  | Checking _ slots | Settled _ slots =>
      flat_map (fun s => match s with
                         | Pending n r => [Check n r]
                         | _ => []
                         end) slots
  | Marking n labels => [MarkIssueAsChecked n labels]
  end.

(** An upper bound on the turns of the event loop the pipelines can
    still take: one per operation in flight, and one for the store update
    a pipeline that is still checking may go on to make. *)
Definition turnsOf (p : pipeline) : nat :=
  match p with
  | Checking _ slots => S (length (pendingFrom 0 slots))
  | Marking _ _ => 1
  | Settled _ slots => length (pendingFrom 0 slots)
  end.

Definition turns (ps : list pipeline) : nat :=
  fold_right (fun p n => (turnsOf p + n)%nat) 0%nat ps.

Definition setInflight (cs : list call) (st : state) : state :=
  {| store := store st; trace := trace st; exitCode := exitCode st;
     exited := exited st; inflight := cs |}.

Definition isRejected (r : result unit) : bool := negb (isOk r).

Section Orchestrator.

Variable w : World.

Local Open Scope m_scope.

(** *** The store operations, awaited *)

Definition getWaitingIssues : M (list issue) :=
  fun st =>
    await GetWaitingIssues
      (match listing w with
       | Ok _ => Ok (awaiting (store st))
       | Throw e => Throw e
       end) st.

(** The settling of [markIssueAsChecked(n, labels)]: the store is
    updated when the call succeeds and left as it is when it fails. *)
Definition markIssueAsChecked (n : Z) (labels : list label) (st : state)
  : result unit * state :=
  let r := marking w n labels in
  let st1 := record [Finish (MarkIssueAsChecked n labels) (isOk r)] st in
  match r with
  | Ok _ => (Ok tt, setStore (markChecked n labels (store st)) st1)
  | Throw e => (Throw e, st1)
  end.

Definition createWaitingIssue (date text : string) : M unit :=
  fun st =>
    let r := creating w date text in
    let st1 := record [Start (CreateWaitingIssue date text);
                       Finish (CreateWaitingIssue date text) (isOk r)] st in
    match r with
    | Ok _ => (Ok tt, setStore (addWaiting date text (store st)) st1)
    | Throw e => (Throw e, st1)
    end.

(** *** One ticket's pipeline, lines 65-78 *)

(** From the call of the [async] function to its first suspension:
    the body is tested and decoded and every check is called, in order. *)
Definition startPipeline (issue : issue) (st : state) : pipeline * state :=
  match body issue with
  | Some text =>
      if String.eqb text "" then (Settled (Ok tt) [], st) else
      let st1 := record [BodyParser text] st in
      match bodyParser w text with
      | Ok (numbers, round) =>
          (Checking (number issue) (map (fun n => Pending n round) numbers),
           record (map (fun n => Start (Check n round)) numbers) st1)
      | Throw e => (Settled (Throw e) [], st1)
      end
  | None => (Settled (Ok tt) [], st)
  end.

(** When [Promise.all(checkPromises)] has resolved: lines 75-76, up to
    the call of [markIssueAsChecked]. *)
Definition resume (p : pipeline) (st : state) : pipeline * state :=
  match p with
  | Checking n slots =>
      match ranksOf slots with
      | Some ranks =>
          let rankLabels := setOf (map (rankToLabel w) ranks) in
          (Marking n rankLabels,
           record [Start (MarkIssueAsChecked n rankLabels)] st)
      | None => (p, st)
      end
  | _ => (p, st)
  end.

(** The operation at position [j] of pipeline [p] settles.  A check that
    rejects while the pipeline is checking rejects it at once
    ([Promise.all]); one that settles after that changes nothing. *)
Definition settle (j : nat) (p : pipeline) (st : state) : pipeline * state :=
  match p with
  | Checking n slots =>
      match slots !! j with
      | Some (Pending numbers round) =>
          let r := check w numbers round in
          let st1 := record [Finish (Check numbers round) (isOk r)] st in
          match r with
          | Ok rank => resume (Checking n (<[j := Got rank]> slots)) st1
          | Throw e => (Settled (Throw e) (<[j := Failed]> slots), st1)
          end
      | _ => (p, st)
      end
  | Marking n labels =>
      let '(r, st1) := markIssueAsChecked n labels st in
      (Settled r [], st1)
  | Settled o slots =>
      match slots !! j with
      | Some (Pending numbers round) =>
          let r := check w numbers round in
          (Settled o (<[j := match r with Ok rank => Got rank | Throw _ => Failed end]> slots),
           record [Finish (Check numbers round) (isOk r)] st)
      | _ => (p, st)
      end
  end.

(** *** The fan-out, lines 65-80 *)

(** [waitingIssues.map(async issue => ...)]: every pipeline runs to its
    first suspension, one after the other. *)
Fixpoint startAll (issues : list issue) (st : state) : list pipeline * state :=
  match issues with
  | [] => ([], st)
  | i :: issues' =>
      let '(p, st1) := startPipeline i st in
      let '(ps, st2) := startAll issues' st1 in
      (p :: ps, st2)
  end.

(** The pipelines that have nothing to wait for (no combination) resume
    as soon as the synchronous code has run. *)
Fixpoint resumeAll (ps : list pipeline) (st : state) : list pipeline * state :=
  match ps with
  | [] => ([], st)
  | p :: ps' =>
      let '(p1, st1) := resume p st in
      let '(ps1, st2) := resumeAll ps' st1 in
      (p1 :: ps1, st2)
  end.

(** One turn of the event loop: the operation in flight that the
    schedule picks settles, and its pipeline runs to its next suspension. *)
Definition turn (k : nat) (ps : list pipeline) (st : state) : list pipeline * state :=
  let calls := inflightFrom 0 ps in
  match calls !! (schedule w k mod length calls)%nat with
  | Some (i, j) =>
      match ps !! i with
      | Some p => let '(p1, st1) := settle j p st in (<[i := p1]> ps, st1)
      | None => (ps, st)
      end
  | None => (ps, st)
  end.

(** The event loop, until every pipeline has settled. *)
Fixpoint eventLoop (fuel : nat) (ps : list pipeline) (st : state)
  : list pipeline * state :=
  if forallb settled ps then (ps, st) else
  match fuel with
  | O => (ps, st)
  | S fuel' => let '(ps1, st1) := turn fuel ps st in eventLoop fuel' ps1 st1
  end.

(** [await Promise.allSettled(promises)]: the outcomes of the pipelines;
    the checks nobody waits for any more stay in flight. *)
Definition allSettled (waitingIssues : list issue) : M (list (result unit)) :=
  fun st =>
    let '(ps0, st1) := startAll waitingIssues st in
    let '(ps1, st2) := resumeAll ps0 st1 in
    let '(ps2, st3) := eventLoop (turns ps1) ps1 st2 in
    (Ok (omap outcomeOf ps2),
     setInflight (inflight st3 ++ flat_map orphansOf ps2) st3).

(** *** [runWinningCheck], lines 58-88 *)
Definition runWinningCheck : M unit :=
  info CheckingResults ;;
  waitingIssues <- getWaitingIssues ;;
  if (0 <? length waitingIssues)%nat then
    info (CheckingCount (length waitingIssues)) ;;
    result <- allSettled waitingIssues ;;
    let rejectedIssues := List.filter isRejected result in
    if (0 <? length rejectedIssues)%nat
    then info (CheckErrors (length rejectedIssues))
    else ret tt
  else info NothingToCheck.

(** *** [runPurchase], lines 90-116 *)

(** Lines 94-95: the amount asked of [service.purchase]. *)
Definition purchaseAmount : Js.number :=
  let amountInput := Js.logicalOr (Js.Number (getInput w lottoPurchaseAmount)) (Js.ofZ 5) in
  Js.Math_max (Js.ofZ 1) (Js.Math_min amountInput (Js.ofZ 5)).

(** The [try] block, lines 94-107. *)
Definition purchaseBody : M unit :=
  let amount := purchaseAmount in
  let date := today w in
  numbers <- await (Purchase amount) (purchase w amount) ;;
  info Purchased ;;
  current <- lift (getCurrentLottoRound w) ;;
  let round := current + 1 in
  link <- lift (getCheckWinningLink w round numbers) ;;
  info CreatingIssue ;;
  issueBody <- lift (bodyBuilder w date round numbers link) ;;
  createWaitingIssue date issueBody ;;
  info IssueCreated.

Definition runPurchase : M unit :=
  info Purchasing ;;
  try purchaseBody
    (fun e =>
       await Destroy (destroy w) ;;
       if instanceofError e
       then info (PurchaseFailed (toString e)) ;; setFailed (message e)
       else ret tt).

(** *** [runActionsEnvironments] and [runInitRepo], lines 31-56 *)
Definition runActionsEnvironments : M unit :=
  info SettingUp ;;
  await InstallBrowser (installBrowser w) ;;
  let id := getInput w lottoId in
  let pwd := getInput w lottoPassword in
  log NewLottoService ;;
  lift (newLottoService w) ;;
  if negb (String.eqb id "") && negb (String.eqb pwd "")
  then await (SignIn id pwd) (signIn w id pwd)
  else ret tt.

Definition runInitRepo : M unit := await InitLabels (initLabels w).

(** *** [run], lines 15-30 *)

(** The [try] block, lines 17-21. *)
Definition runBody : M unit :=
  runInitRepo ;;
  runActionsEnvironments ;;
  runWinningCheck ;;
  runPurchase.

Definition run (st : state) : state :=
  let '(_, st1) :=
    try runBody
      (fun e =>
         if instanceofError e
         then info (RunFailed (toString e)) ;; setFailed (message e)
         else ret tt) st in
  exit 0 st1.

End Orchestrator.


(** ** What a ticket's pipeline comes to, taken on its own *)

(** [issue.body] when it is truthy. *)
Definition truthyBody (i : issue) : option string :=
  match body i with
  | Some text => if String.eqb text "" then None else Some text
  | None => None
  end.

(** The ranks of the combinations when every check resolves. *)
Fixpoint ranksFor (w : World) (numbers : list combination) (round : Z)
  : option (list Z) :=
  match numbers with
  | [] => Some []
  | n :: numbers' =>
      match check w n round with
      | Ok rank => option_map (cons rank) (ranksFor w numbers' round)
      | Throw _ => None
      end
  end.

Definition labelsOf (w : World) (ranks : list Z) : list label :=
  setOf (map (rankToLabel w) ranks).

(** - [Skipped]: no truthy body, the promise is fulfilled and nothing is done;
    - [Rejected]: the decoding, a check or the store update throws;
    - [Marked labels]: the store update with [labels] succeeds. *)
Inductive verdict :=
| Skipped
| Rejected
| Marked (labels : list label).

Definition verdictOf (w : World) (i : issue) : verdict :=
  match truthyBody i with
  | None => Skipped
  | Some text =>
      match bodyParser w text with
      | Throw _ => Rejected
      | Ok (numbers, round) =>
          match ranksFor w numbers round with
          | None => Rejected
          | Some ranks =>
              if isOk (marking w (number i) (labelsOf w ranks))
              then Marked (labelsOf w ranks)
              else Rejected
          end
      end
  end.

Definition rejects (v : verdict) : bool :=
  match v with Rejected => true | _ => false end.

(** The status the verdict leaves an Awaiting ticket in. *)
Definition statusAfter (v : verdict) : lifecycle :=
  match v with Marked labels => Checked labels | _ => Awaiting end.

(** A slot of the pipeline agrees with the combination it checks. *)
Definition slotFor (w : World) (round : Z) (numbers : combination) (s : slot) : Prop :=
  s = Pending numbers round \/
  exists rank, s = Got rank /\ check w numbers round = Ok rank.

(** The pipeline [p] is where the pipeline of ticket [i] can be. *)
Definition good (w : World) (i : issue) (p : pipeline) : Prop :=
  match truthyBody i with
  | None => p = Settled (Ok tt) []
  | Some text =>
      match bodyParser w text with
      | Throw e => p = Settled (Throw e) []
      | Ok (numbers, round) =>
          match p with
          | Checking n slots =>
              n = number i /\ Forall2 (slotFor w round) numbers slots /\
              ranksOf slots = None
          | Marking n labels =>
              n = number i /\
              exists ranks, ranksFor w numbers round = Some ranks /\
                            labels = labelsOf w ranks
          | Settled (Ok _) _ =>
              exists ranks, ranksFor w numbers round = Some ranks /\
                            isOk (marking w (number i) (labelsOf w ranks)) = true
          | Settled (Throw _) _ =>
              ranksFor w numbers round = None \/
              exists ranks, ranksFor w numbers round = Some ranks /\
                            isOk (marking w (number i) (labelsOf w ranks)) = false
          end
      end
  end.

(** A pipeline that is still checking waits for a check in flight, and
    none of its checks has failed. *)
Definition ready (p : pipeline) : Prop :=
  match p with
  | Checking _ slots => ranksOf slots = None /\ Forall (fun s => s <> Failed) slots
  | _ => True
  end.

(** The status the store has for the ticket of a pipeline while the
    fan-out runs. *)
Definition statusNow (w : World) (i : issue) (p : pipeline) : lifecycle :=
  match p with
  | Settled (Ok _) _ => statusAfter (verdictOf w i)
  | _ => Awaiting
  end.

(** Where [startPipeline] leaves the pipeline of ticket [i]. *)
Definition begun (w : World) (i : issue) (p : pipeline) : Prop :=
  match truthyBody i with
  | None => p = Settled (Ok tt) []
  | Some text =>
      match bodyParser w text with
      | Throw e => p = Settled (Throw e) []
      | Ok (numbers, round) =>
          p = Checking (number i) (map (fun n => Pending n round) numbers)
      end
  end.

(** The events of the fan-out, of the checking phase and of the purchase
    phase. *)
Definition fanOutEvent (e : event) : bool :=
  match e with
  | BodyParser _ => true
  | Start (Check _ _) | Finish (Check _ _) _ => true
  | Start (MarkIssueAsChecked _ _) | Finish (MarkIssueAsChecked _ _) _ => true
  | _ => false
  end.

Definition checkerEvent (e : event) : bool :=
  fanOutEvent e ||
  match e with
  | Start GetWaitingIssues | Finish GetWaitingIssues _ => true
  | Info CheckingResults | Info (CheckingCount _) | Info (CheckErrors _)
  | Info NothingToCheck => true
  | _ => false
  end.

Definition purchaseEvent (e : event) : bool :=
  match e with
  | Start (Purchase _) | Finish (Purchase _) _ => true
  | Start (CreateWaitingIssue _ _) | Finish (CreateWaitingIssue _ _) _ => true
  | Start Destroy | Finish Destroy _ => true
  | Info Purchasing | Info Purchased | Info CreatingIssue | Info IssueCreated
  | Info (PurchaseFailed _) => true
  | SetFailed _ => true
  | _ => false
  end.


(** [st'] is [st] after some more events, all of kind [P]; the store
    aside, nothing else has changed. *)
Definition grows (P : event -> bool) (st st' : state) : Prop :=
  (exists evs, trace st' = trace st ++ evs /\ forallb P evs = true) /\
  exitCode st' = exitCode st /\ exited st' = exited st /\
  inflight st' = inflight st.

(** The invariant of the event loop over the awaiting tickets [issues]:
    every pipeline is where its ticket's can be, and the store has every
    ticket in the status its pipeline has brought it to. *)
Definition fanOutInv (w : World) (issues : list issue) (st0 : state)
  (ps : list pipeline) (st : state) : Prop :=
  Forall2 (good w) issues ps /\
  (forall k i p, issues !! k = Some i -> ps !! k = Some p ->
                 statusOf (number i) (store st) = Some (statusNow w i p)) /\
  (forall n, n ∉ map number issues ->
             statusOf n (store st) = statusOf n (store st0)).

(** [st'] is [st] after some more events, all of kind [P], and the
    process has not exited in between. *)
Definition advances (P : event -> bool) (st st' : state) : Prop :=
  (exists evs, trace st' = trace st ++ evs /\ forallb P evs = true) /\
  exited st' = exited st.

(** The number of awaiting tickets whose own verdict is a rejection. *)
Definition failures (w : World) (issues : list issue) : nat :=
  length (List.filter (fun i => rejects (verdictOf w i)) issues).

(** What [runWinningCheck] logs around the events [evs] of its fan-out. *)
Definition checkerTrace (w : World) (issues : list issue) (evs : list event)
  : list event :=
  [Info CheckingResults; Start GetWaitingIssues; Finish GetWaitingIssues true] ++
  match issues with
  | [] => [Info NothingToCheck]
  | _ :: _ =>
      Info (CheckingCount (length issues)) :: evs ++
      (if (0 <? failures w issues)%nat
       then [Info (CheckErrors (failures w issues))] else [])
  end.

(** The events of the bootstrap, lines 17-19. *)
Definition setupEvent (e : event) : bool :=
  match e with
  | Start InitLabels | Finish InitLabels _ => true
  | Info SettingUp | NewLottoService => true
  | Start InstallBrowser | Finish InstallBrowser _ => true
  | Start (SignIn _ _) | Finish (SignIn _ _) _ => true
  | _ => false
  end.

(** The events of the [catch] and [finally] of [run], lines 22-29. *)
Definition finalEvent (e : event) : bool :=
  match e with
  | Info (RunFailed _) | SetFailed _ | Exit _ => true
  | _ => false
  end.

(** [service.destroy()] is called. *)
Definition isRelease (e : event) : bool :=
  match e with Start Destroy => true | _ => false end.

(** A ticket has been created in the store. *)
Definition isCreated (e : event) : bool :=
  match e with Finish (CreateWaitingIssue _ _) true => true | _ => false end.

(** A failure is reported: the failure signal, or a failure line of the log. *)
Definition isFailureReport (e : event) : bool :=
  match e with
  | SetFailed _ | Info (RunFailed _) | Info (PurchaseFailed _) => true
  | _ => false
  end.

(** The run up to the call of [runPurchase], lines 17-20. *)
Definition beforePurchase (w : World) : M unit :=
  bind (runInitRepo w) (fun _ =>
  bind (runActionsEnvironments w) (fun _ => runWinningCheck w)).

(** ** Worlds to run the program in *)

(** A world in which every collaborator succeeds, but for what the
    arguments say: the outcome of [initLabels], the purchase-amount
    input, the body decoder, the checks, the store update, the purchase
    and the schedule. *)
Definition worldWith (init : result unit) (amountInput : string)
  (parser : string -> result (list combination * Z))
  (checker : combination -> Z -> result Z)
  (marker : Z -> list label -> result unit)
  (buyer : Js.number -> result (list combination))
  (sched : nat -> nat) : World :=
  {| getInput := fun k => match k with
                          | lottoPurchaseAmount => amountInput
                          | _ => "" end;
     initLabels := init;
     listing := Ok tt;
     rankToLabel := fun rank =>
                      match rank with
                      | 1 => "1st" | 2 => "2nd" | 3 => "3rd"
                      | 4 => "4th" | 5 => "5th" | _ => "lose"
                      end;
     marking := marker;
     creating := fun _ _ => Ok tt;
     installBrowser := Ok tt;
     newLottoService := Ok tt;
     signIn := fun _ _ => Ok tt;
     check := checker;
     purchase := buyer;
     getCheckWinningLink := fun _ _ => Ok "link";
     destroy := Ok tt;
     getCurrentLottoRound := Ok 1084;
     bodyParser := parser;
     bodyBuilder := fun _ _ _ _ => Ok "body";
     today := "2023-06-13";
     schedule := sched |}.

(** A decoder for three bodies: ["A"] holds three combinations, ["C"]
    two, ["Z"] none, and anything else does not decode. *)
Definition toyParser (text : string) : result (list combination * Z) :=
  if String.eqb text "A" then Ok ([[5; 11]; [5; 12]; [3; 13]], 1084)
  else if String.eqb text "C" then Ok ([[0; 1]; [7; 2]], 1084)
  else if String.eqb text "Z" then Ok ([], 1084)
  else Throw (JsError "SyntaxError" "unexpected body").

(** A checker that answers with the first number of the combination as
    its rank, and fails on a combination that starts with 0. *)
Definition toyChecker (numbers : combination) (round : Z) : result Z :=
  match numbers with
  | 0 :: _ => Throw (JsError "Error" "check failed")
  | rank :: _ => Ok rank
  | [] => Ok 0
  end.

Definition toyBuyer (amount : Js.number) : result (list combination) :=
  Ok [[1; 2; 3; 4; 5; 6]].

Definition calm : World :=
  worldWith (Ok tt) "" toyParser toyChecker (fun _ _ => Ok tt) toyBuyer (fun _ => 0%nat).

Definition waiting (n : Z) (text : option string) : issue :=
  {| number := n; title := "2023-06-06"; body := text; status := Awaiting |}.

Definition storeOf (s : list issue) : state :=
  {| store := s; trace := []; exitCode := None; exited := None; inflight := [] |}.

(** ** Further notions about the run *)

(** The bootstrap of [run], lines 17-19. *)
Definition bootstrap (w : World) : M unit :=
  bind (runInitRepo w) (fun _ => runActionsEnvironments w).

(** An operation of the purchase phase is called: [service.purchase],
    [createWaitingIssue] or [service.destroy]. *)
Definition isPurchaseCall (e : event) : bool :=
  match e with
  | Start (Purchase _) | Start (CreateWaitingIssue _ _) | Start Destroy => true
  | _ => false
  end.

(** [lottoService.signIn] is called. *)
Definition isSignIn (e : event) : bool :=
  match e with Start (SignIn _ _) => true | _ => false end.

(** [service.check] is called. *)
Definition isCheckStart (e : event) : bool :=
  match e with Start (Check _ _) => true | _ => false end.

Definition isCheckCall (c : call) : bool :=
  match c with Check _ _ => true | _ => false end.

(** What the pipeline of a ticket does from its call to its first
    suspension: the body is decoded when it is truthy, and every
    combination it holds is checked. *)
Definition startTrace (w : World) (i : issue) : list event :=
  match truthyBody i with
  | None => []
  | Some text =>
      BodyParser text ::
      match bodyParser w text with
      | Ok (numbers, round) => map (fun n => Start (Check n round)) numbers
      | Throw _ => []
      end
  end.

(** The events of the fan-out once every pipeline is suspended. *)
Definition settleEvent (e : event) : bool :=
  match e with
  | Finish (Check _ _) _ => true
  | Start (MarkIssueAsChecked _ _) | Finish (MarkIssueAsChecked _ _) _ => true
  | _ => false
  end.

(** What is left of a ticket when its status is put aside. *)
Definition skeleton (i : issue) : Z * string * option string :=
  (number i, title i, body i).

(** The ticket [i] as the checker leaves it: an awaiting ticket in the
    status of its verdict, any other ticket as it is. *)
Definition restatus (w : World) (i : issue) : issue :=
  {| number := number i; title := title i; body := body i;
     status := if isAwaiting i then statusAfter (verdictOf w i) else status i |}.

Definition isMarked (v : verdict) : bool :=
  match v with Marked _ => true | _ => false end.

(** The world [w] with another order of completion. *)
Definition reschedule (sched : nat -> nat) (w : World) : World :=
  {| getInput := getInput w;
     initLabels := initLabels w;
     listing := listing w;
     rankToLabel := rankToLabel w;
     marking := marking w;
     creating := creating w;
     installBrowser := installBrowser w;
     newLottoService := newLottoService w;
     signIn := signIn w;
     check := check w;
     purchase := purchase w;
     getCheckWinningLink := getCheckWinningLink w;
     destroy := destroy w;
     getCurrentLottoRound := getCurrentLottoRound w;
     bodyParser := bodyParser w;
     bodyBuilder := bodyBuilder w;
     today := today w;
     schedule := sched |}.

(** A body is decoded or a check is called: what the pipelines do
    before their first suspension. *)
Definition startEvent (e : event) : bool :=
  match e with
  | BodyParser _ | Start (Check _ _) => true
  | _ => false
  end.

(** [markIssueAsChecked] is called. *)
Definition isMarkStart (e : event) : bool :=
  match e with Start (MarkIssueAsChecked _ _) => true | _ => false end.

(** The call of [markIssueAsChecked] the pipeline of ticket [i] comes
    to, if it does: its body decodes and all its checks resolve. *)
Definition markOf (w : World) (i : issue) : list event :=
  match truthyBody i with
  | None => []
  | Some text =>
      match bodyParser w text with
      | Throw _ => []
      | Ok (numbers, round) =>
          match ranksFor w numbers round with
          | None => []
          | Some ranks => [Start (MarkIssueAsChecked (number i) (labelsOf w ranks))]
          end
      end
  end.

(** The calls of [markIssueAsChecked] made so far, by the pipelines that
    are past their checks. *)
Definition issuedBy (w : World) (i : issue) (p : pipeline) : list event :=
  match p with
  | Checking _ _ => []
  | _ => markOf w i
  end.

Fixpoint issued (w : World) (issues : list issue) (ps : list pipeline) : list event :=
  match issues, ps with
  | i :: issues', p :: ps' => issuedBy w i p ++ issued w issues' ps'
  | _, _ => []
  end.

(** * Lemmas *)

(** ** Lists of events *)

Lemma forallb_impl {A} (P Q : A -> bool) l :
  (forall x, P x = true -> Q x = true) -> forallb P l = true -> forallb Q l = true.
Proof. intros H. rewrite !forallb_forall. auto. Qed.

Lemma filter_none {A} (P Q : A -> bool) l :
  (forall x, P x = true -> Q x = false) ->
  forallb P l = true -> List.filter Q l = [].
Proof.
  intros HPQ. induction l as [|x l IH]; [reflexivity|]. simpl.
  intros H. apply andb_true_iff in H as [H1 H2]. rewrite (HPQ x H1). auto.
Qed.

(** ** The operations in flight *)

Lemma elem_of_pendingFrom (slots : list slot) (k j : nat) :
  j ∈ pendingFrom k slots <->
  (k <= j)%nat /\ exists n r, slots !! (j - k)%nat = Some (Pending n r).
Proof.
  revert k. induction slots as [|s slots IH]; intros k; simpl.
  - split; [intros H; inversion H | intros (_ & n & r & H); discriminate].
  - assert (Hrest : j ∈ pendingFrom (S k) slots <->
                    (k < j)%nat /\ exists n r, slots !! (j - S k)%nat = Some (Pending n r)).
    { rewrite IH. split; intros [? ?]; split; auto; lia. }
    destruct (decide (j = k)) as [->|Hne].
    + replace (k - k)%nat with 0%nat by lia. simpl.
      destruct s as [n r| |]; simpl.
      * split; [intros _; split; eauto | intros _; left].
      * rewrite Hrest. split; [intros [? _]; lia | intros (_ & ? & ? & ?); discriminate].
      * rewrite Hrest. split; [intros [? _]; lia | intros (_ & ? & ? & ?); discriminate].
    + assert (Hcons : forall x, (k <= j)%nat -> (s :: slots) !! (j - k)%nat = x <->
                                slots !! (j - S k)%nat = x).
      { intros x Hle. replace (j - k)%nat with (S (j - S k)) by lia. reflexivity. }
      destruct (isPending s).
      * rewrite elem_of_cons, Hrest. split.
        -- intros [?|[Hlt (n & r & H)]]; [lia|]. split; [lia|].
           exists n, r. apply Hcons; [lia | exact H].
        -- intros (Hle & n & r & H). right. split; [lia|].
           exists n, r. apply Hcons in H; [exact H | lia].
      * rewrite Hrest. split.
        -- intros [Hlt (n & r & H)]. split; [lia|].
           exists n, r. apply Hcons; [lia | exact H].
        -- intros (Hle & n & r & H). split; [lia|].
           exists n, r. apply Hcons in H; [exact H | lia].
Qed.

Lemma elem_of_pending (slots : list slot) (j : nat) :
  j ∈ pendingFrom 0 slots <-> exists n r, slots !! j = Some (Pending n r).
Proof.
  rewrite elem_of_pendingFrom. replace (j - 0)%nat with j by lia.
  split; [intros [_ H]; exact H | intros H; split; [lia | exact H]].
Qed.

Lemma elem_of_inflightFrom (ps : list pipeline) (k i j : nat) :
  (i, j) ∈ inflightFrom k ps <->
  (k <= i)%nat /\ exists p, ps !! (i - k)%nat = Some p /\ j ∈ callsOf p.
Proof.
  revert k. induction ps as [|p ps IH]; intros k; simpl.
  - split; [intros H; inversion H | intros (_ & p & H & _); discriminate].
  - rewrite elem_of_app, IH, list_elem_of_fmap. split.
    + intros [(j' & Heq & Hj)|(Hle & q & Hq & Hj)].
      * inversion Heq; subst. split; [lia|].
        exists p. replace (k - k)%nat with 0%nat by lia. auto.
      * split; [lia|]. exists q.
        replace (i - k)%nat with (S (i - S k)) by lia. auto.
    + intros (Hle & q & Hq & Hj).
      destruct (decide (i = k)) as [->|Hne].
      * left. replace (k - k)%nat with 0%nat in Hq by lia.
        simpl in Hq. inversion Hq; subst. eauto.
      * right. split; [lia|]. exists q.
        replace (i - k)%nat with (S (i - S k)) in Hq by lia. auto.
Qed.

Lemma elem_of_inflight (ps : list pipeline) (i j : nat) :
  (i, j) ∈ inflightFrom 0 ps <-> exists p, ps !! i = Some p /\ j ∈ callsOf p.
Proof.
  rewrite elem_of_inflightFrom. replace (i - 0)%nat with i by lia.
  split; [intros [_ H]; exact H | intros H; split; [lia | exact H]].
Qed.

Lemma pendingFrom_settle (slots : list slot) (k j : nat) n r s :
  slots !! j = Some (Pending n r) ->
  isPending s = false ->
  S (length (pendingFrom k (<[j := s]> slots))) = length (pendingFrom k slots).
Proof.
  revert k j. induction slots as [|s0 slots IH]; intros k j Hj Hs; [discriminate|].
  destruct j as [|j]; simpl in *.
  - inversion Hj; subst. simpl. rewrite Hs. reflexivity.
  - destruct (isPending s0); simpl; erewrite <- (IH (S k) j); eauto.
Qed.

Lemma ready_pending n slots : ready (Checking n slots) -> pendingFrom 0 slots <> [].
Proof.
  simpl. generalize 0%nat. induction slots as [|s slots IH]; intros k [Hr Hf].
  - discriminate.
  - inversion Hf; subst. destruct s as [? ?|rank|]; simpl in *.
    + discriminate.
    + apply IH. split; [|assumption].
      destruct (ranksOf slots); [discriminate | reflexivity].
    + congruence.
Qed.

Section Loop.

Variable w : World.

Lemma turn_cases k ps st :
  (inflightFrom 0 ps = [] /\ turn w k ps st = (ps, st)) \/
  (exists i j p, ps !! i = Some p /\ j ∈ callsOf p /\
     turn w k ps st = (<[i := (settle w j p st).1]> ps, (settle w j p st).2)).
Proof.
  unfold turn. destruct (inflightFrom 0 ps) as [|c calls] eqn:Hcalls.
  - left. split; [reflexivity|]. simpl. reflexivity.
  - right.
    destruct (lookup_lt_is_Some_2 (c :: calls)
                (schedule w k mod length (c :: calls))%nat) as [[i j] Hij].
    { apply Nat.mod_upper_bound. simpl. lia. }
    rewrite Hij.
    assert (Hin : (i, j) ∈ inflightFrom 0 ps).
    { rewrite Hcalls. eapply list_elem_of_lookup_2; eauto. }
    apply elem_of_inflight in Hin as (p & Hp & Hj).
    exists i, j, p. rewrite Hp. destruct (settle w j p st). auto.
Qed.

(** What every settling preserves, the event loop preserves. *)
Lemma eventLoop_invariant (I : list pipeline -> state -> Prop) :
  (forall ps st i j p,
      I ps st -> ps !! i = Some p -> j ∈ callsOf p ->
      I (<[i := (settle w j p st).1]> ps) (settle w j p st).2) ->
  forall fuel ps st,
    I ps st -> I (eventLoop w fuel ps st).1 (eventLoop w fuel ps st).2.
Proof.
  intros Hstep. induction fuel as [|fuel IH]; intros ps st HI; simpl.
  - destruct (forallb settled ps); exact HI.
  - destruct (forallb settled ps); [exact HI|].
    destruct (turn_cases (S fuel) ps st) as [[_ Ht]|(i & j & p & Hp & Hj & Ht)];
      rewrite Ht; apply IH; eauto.
Qed.

Lemma settle_ready j p st :
  ready p -> j ∈ callsOf p -> ready (settle w j p st).1.
Proof.
  destruct p as [n slots|n labels|o slots]; simpl; intros Hr Hj.
  - apply elem_of_pending in Hj as (nums & r & Hj). rewrite Hj.
    destruct (check w nums r) as [rank|e]; simpl; [|exact I].
    destruct (ranksOf (<[j := Got rank]> slots)) eqn:Hranks; simpl; [exact I|].
    split; [exact Hranks|]. apply Forall_insert; [tauto | discriminate].
  - destruct (markIssueAsChecked w n labels st). exact I.
  - destruct (slots !! j) as [[? ?| |]|]; exact I.
Qed.

Lemma settle_turns j p st :
  j ∈ callsOf p -> (turnsOf (settle w j p st).1 < turnsOf p)%nat.
Proof.
  destruct p as [n slots|n labels|o slots]; simpl; intros Hj.
  - apply elem_of_pending in Hj as (nums & r & Hj). rewrite Hj.
    destruct (check w nums r) as [rank|e]; simpl.
    + pose proof (pendingFrom_settle slots 0 j nums r (Got rank) Hj eq_refl).
      destruct (ranksOf (<[j := Got rank]> slots)); simpl; lia.
    + pose proof (pendingFrom_settle slots 0 j nums r Failed Hj eq_refl). lia.
  - destruct (markIssueAsChecked w n labels st). simpl. lia.
  - apply elem_of_pending in Hj as (nums & r & Hj). rewrite Hj. simpl.
    pose proof (pendingFrom_settle slots 0 j nums r
                  (match check w nums r with Ok rank => Got rank | Throw _ => Failed end)
                  Hj ltac:(destruct (check w nums r); reflexivity)).
    lia.
Qed.

Lemma turns_insert ps i p p1 :
  ps !! i = Some p -> (turnsOf p1 < turnsOf p)%nat ->
  (turns (<[i := p1]> ps) < turns ps)%nat.
Proof.
  revert i. induction ps as [|q ps IH]; intros i Hi Hlt; [discriminate|].
  destruct i as [|i]; simpl in *.
  - inversion Hi; subst. lia.
  - specialize (IH i Hi Hlt). lia.
Qed.

Lemma unsettled_turns ps :
  Forall ready ps -> forallb settled ps = false ->
  inflightFrom 0 ps <> [] /\ (0 < turns ps)%nat.
Proof.
  intros Hr Hs.
  assert (H : forall k, inflightFrom k ps <> [] /\ (0 < turns ps)%nat); [|apply H].
  induction ps as [|p ps IH]; intros k; [discriminate|].
  inversion Hr as [|? ? Hp Hps]; subst. simpl in Hs. simpl.
  destruct p as [n slots|n labels|o slots]; simpl in *.
  - pose proof (ready_pending n slots Hp) as Hne.
    destruct (pendingFrom 0 slots); [congruence|]. simpl. split; [discriminate | lia].
  - split; [discriminate | lia].
  - destruct (IH Hps Hs (S k)) as [Hne Hpos]. split; [|lia].
    intros Happ. apply app_eq_nil in Happ as [_ ?]. contradiction.
Qed.

(** The event loop ends with every pipeline settled: the fuel that
    [allSettled] gives it is enough. *)
Lemma eventLoop_settles fuel ps st :
  Forall ready ps -> (turns ps <= fuel)%nat ->
  forallb settled (eventLoop w fuel ps st).1 = true.
Proof.
  revert ps st. induction fuel as [|fuel IH]; intros ps st Hr Hfuel; simpl.
  - destruct (forallb settled ps) eqn:Hs; [exact Hs|].
    destruct (unsettled_turns ps Hr Hs). lia.
  - destruct (forallb settled ps) eqn:Hs; [exact Hs|].
    destruct (unsettled_turns ps Hr Hs) as [Hne Hpos].
    destruct (turn_cases (S fuel) ps st) as [[Hnil _]|(i & j & p & Hp & Hj & Ht)];
      [contradiction|].
    rewrite Ht. apply IH.
    + apply Forall_insert; [exact Hr|]. apply settle_ready; [|exact Hj].
      eapply Forall_lookup_1; eauto.
    + pose proof (turns_insert ps i p _ Hp (settle_turns j p st Hj)). lia.
Qed.

End Loop.

(** ** The store *)

Lemma statusOf_markChecked n m labels s :
  statusOf n (markChecked m labels s) =
  if n =? m then option_map (fun _ => Checked labels) (statusOf n s)
  else statusOf n s.
Proof.
  unfold statusOf. induction s as [|i s IH]; simpl.
  - destruct (n =? m); reflexivity.
  - destruct (number i =? m) eqn:Him; simpl.
    + apply Z.eqb_eq in Him. destruct (number i =? n) eqn:Hin; simpl.
      * apply Z.eqb_eq in Hin. replace (n =? m) with true; [reflexivity|].
        symmetry. apply Z.eqb_eq. lia.
      * exact IH.
    + destruct (number i =? n) eqn:Hin; simpl.
      * apply Z.eqb_eq in Hin. subst. rewrite Him. reflexivity.
      * exact IH.
Qed.

Lemma statusOf_elem s i :
  NoDup (map number s) -> i ∈ s -> statusOf (number i) s = Some (status i).
Proof.
  unfold statusOf. induction s as [|i0 s IH]; intros Hnd Hin.
  - inversion Hin.
  - simpl in Hnd. apply NoDup_cons in Hnd as [Hnotin Hnd]. simpl.
    apply elem_of_cons in Hin as [->|Hin].
    + rewrite Z.eqb_refl. reflexivity.
    + destruct (number i0 =? number i) eqn:Heq.
      * apply Z.eqb_eq in Heq. exfalso. apply Hnotin. rewrite Heq.
        apply list_elem_of_fmap. eauto.
      * apply IH; assumption.
Qed.

Lemma elem_of_awaiting s i : i ∈ awaiting s <-> i ∈ s /\ status i = Awaiting.
Proof.
  unfold awaiting. rewrite !list_elem_of_In, filter_In. unfold isAwaiting.
  destruct (status i); split; intros [? ?]; split; auto; discriminate.
Qed.

Lemma NoDup_awaiting s : NoDup (map number s) -> NoDup (map number (awaiting s)).
Proof.
  induction s as [|i s IH]; simpl; intros Hnd; [constructor|].
  apply NoDup_cons in Hnd as [Hnotin Hnd]. destruct (isAwaiting i); simpl; auto.
  apply NoDup_cons. split; [|auto].
  intros Hin. apply Hnotin. apply list_elem_of_fmap in Hin as (i' & Heq & Hin).
  apply elem_of_awaiting in Hin as [Hin _]. apply list_elem_of_fmap. eauto.
Qed.

(** ** A pipeline follows the verdict of its ticket *)

Lemma ranksOf_pending numbers round :
  ranksOf (map (fun n => Pending n round) numbers) =
  match numbers with [] => Some [] | _ => None end.
Proof. destruct numbers; reflexivity. Qed.

Section Pipelines.

Variable w : World.

Lemma startPipeline_begun i st : begun w i (startPipeline w i st).1.
Proof.
  unfold begun, startPipeline, truthyBody.
  destruct (body i) as [text|]; [|reflexivity].
  destruct (String.eqb text ""); [reflexivity|].
  destruct (bodyParser w text) as [[numbers round]|e]; reflexivity.
Qed.

Lemma ranks_agree round numbers slots ranks :
  Forall2 (slotFor w round) numbers slots ->
  ranksOf slots = Some ranks -> ranksFor w numbers round = Some ranks.
Proof.
  intros H. revert ranks. induction H as [|n s numbers slots Hs _ IH]; intros ranks Hr.
  - exact Hr.
  - simpl in *. destruct Hs as [->|(rank & -> & Hc)]; [discriminate|].
    rewrite Hc. destruct (ranksOf slots) as [ranks'|]; [|discriminate].
    rewrite (IH ranks' eq_refl). exact Hr.
Qed.

Lemma ranksFor_throws round numbers j n e :
  numbers !! j = Some n -> check w n round = Throw e ->
  ranksFor w numbers round = None.
Proof.
  revert j. induction numbers as [|n0 numbers IH]; intros j Hj Hc; [discriminate|].
  destruct j as [|j]; simpl in *.
  - inversion Hj; subst. rewrite Hc. reflexivity.
  - destruct (check w n0 round); [|reflexivity].
    rewrite (IH j Hj Hc). reflexivity.
Qed.

Lemma resume_good i p st : begun w i p -> good w i (resume w p st).1.
Proof.
  unfold begun, good. destruct (truthyBody i) as [text|]; [|intros ->; reflexivity].
  destruct (bodyParser w text) as [[numbers round]|e]; [|intros ->; reflexivity].
  intros ->. simpl. rewrite ranksOf_pending. destruct numbers as [|n numbers]; simpl.
  - split; [reflexivity|]. exists []. split; reflexivity.
  - split; [reflexivity|]. split; [|reflexivity].
    constructor; [left; reflexivity|].
    induction numbers; constructor; [left; reflexivity | assumption].
Qed.

Lemma resume_fresh i p st : begun w i p -> statusNow w i (resume w p st).1 = Awaiting.
Proof.
  unfold begun, statusNow, verdictOf.
  destruct (truthyBody i) as [text|]; [|intros ->; reflexivity].
  destruct (bodyParser w text) as [[numbers round]|e]; [|intros ->; reflexivity].
  intros ->. simpl. destruct (ranksOf _); reflexivity.
Qed.

Lemma good_ready i p : good w i p -> ready p.
Proof.
  unfold good. destruct p as [n slots|n labels|o slots]; simpl; try (intros _; exact I).
  destruct (truthyBody i) as [text|]; [|discriminate].
  destruct (bodyParser w text) as [[numbers round]|e]; [|discriminate].
  intros (_ & Hs & Hr). split; [exact Hr|].
  clear Hr. induction Hs as [|n0 s ? ? Hs _ IH]; constructor; [|exact IH].
  destruct Hs as [->|(rank & -> & _)]; discriminate.
Qed.

Lemma settle_good i p j st :
  good w i p -> j ∈ callsOf p -> good w i (settle w j p st).1.
Proof.
  unfold good. destruct (truthyBody i) as [text|];
    [|intros -> Hj; simpl in Hj; inversion Hj].
  destruct (bodyParser w text) as [[numbers round]|e];
    [|intros -> Hj; simpl in Hj; inversion Hj].
  destruct p as [n slots|n labels|o slots]; simpl.
  - intros (-> & Hs & Hr) Hj.
    apply elem_of_pending in Hj as (nums & r & Hj). rewrite Hj.
    destruct (Forall2_lookup_r _ _ _ _ _ Hs Hj) as (nums' & Hn & Hslot).
    destruct Hslot as [Heq|(rank & Heq & _)]; [|discriminate].
    inversion Heq; subst nums' r.
    destruct (check w nums round) as [rank|e] eqn:Hc; simpl.
    + assert (Hs' : Forall2 (slotFor w round) numbers (<[j := Got rank]> slots)).
      { rewrite <- (list_insert_id numbers j nums Hn).
        apply Forall2_insert; [exact Hs|]. right. eauto. }
      destruct (ranksOf (<[j := Got rank]> slots)) as [ranks|] eqn:Hranks; simpl.
      * split; [reflexivity|]. exists ranks. split; [|reflexivity].
        eapply ranks_agree; eauto.
      * auto.
    + left. eapply ranksFor_throws; eauto.
  - intros (-> & ranks & Hranks & ->) _. unfold markIssueAsChecked.
    destruct (marking w (number i) (labelsOf w ranks)) as [[]|e] eqn:Hm; simpl.
    + exists ranks. rewrite Hm. auto.
    + right. exists ranks. rewrite Hm. auto.
  - intros Hgood Hj. apply elem_of_pending in Hj as (nums & r & Hj). rewrite Hj.
    simpl. exact Hgood.
Qed.

(** A settled pipeline is rejected exactly when the verdict says so. *)
Lemma good_settled i o slots :
  good w i (Settled o slots) -> isRejected o = rejects (verdictOf w i).
Proof.
  unfold good, verdictOf. destruct (truthyBody i) as [text|];
    [|intros Heq; inversion Heq; reflexivity].
  destruct (bodyParser w text) as [[numbers round]|e];
    [|intros Heq; inversion Heq; reflexivity].
  destruct o as [[]|e].
  - intros (ranks & -> & ->). reflexivity.
  - intros [->|(ranks & -> & ->)]; reflexivity.
Qed.

End Pipelines.

(** ** What the fan-out does to the state *)

Lemma grows_refl P st : grows P st st.
Proof.
  split; [|auto]. exists []. rewrite app_nil_r. auto.
Qed.

Lemma grows_trans P st1 st2 st3 :
  grows P st1 st2 -> grows P st2 st3 -> grows P st1 st3.
Proof.
  intros [(e1 & H1 & F1) (A1 & B1 & C1)] [(e2 & H2 & F2) (A2 & B2 & C2)].
  split; [|repeat split; congruence].
  exists (e1 ++ e2). rewrite H2, H1, <- app_assoc. split; [reflexivity|].
  rewrite forallb_app, F1, F2. reflexivity.
Qed.

Lemma grows_record (P : event -> bool) evs st :
  forallb P evs = true -> grows P st (record evs st).
Proof.
  intros H. split; [|auto]. exists evs. auto.
Qed.

Lemma grows_setStore P s st : grows P st (setStore s st).
Proof.
  split; [|auto]. exists []. simpl. rewrite app_nil_r. auto.
Qed.

Section FanOut.

Variable w : World.

Lemma startPipeline_grows i st : grows fanOutEvent st (startPipeline w i st).2.
Proof.
  unfold startPipeline. destruct (body i) as [text|]; [|apply grows_refl].
  destruct (String.eqb text ""); [apply grows_refl|].
  destruct (bodyParser w text) as [[numbers round]|e]; simpl.
  - eapply grows_trans; apply grows_record; [reflexivity|].
    induction numbers; simpl; auto.
  - apply grows_record. reflexivity.
Qed.

Lemma startPipeline_store i st : store (startPipeline w i st).2 = store st.
Proof.
  unfold startPipeline. destruct (body i) as [text|]; [|reflexivity].
  destruct (String.eqb text ""); [reflexivity|].
  destruct (bodyParser w text) as [[numbers round]|e]; reflexivity.
Qed.

Lemma resume_grows p st : grows fanOutEvent st (resume w p st).2.
Proof.
  destruct p as [n slots|n labels|o slots]; simpl; try apply grows_refl.
  destruct (ranksOf slots); simpl; [|apply grows_refl].
  apply grows_record. reflexivity.
Qed.

Lemma resume_store p st : store (resume w p st).2 = store st.
Proof.
  destruct p as [n slots|n labels|o slots]; simpl; try reflexivity.
  destruct (ranksOf slots); reflexivity.
Qed.

Lemma settle_grows j p st : grows fanOutEvent st (settle w j p st).2.
Proof.
  destruct p as [n slots|n labels|o slots]; cbn -[resume].
  - destruct (slots !! j) as [[nums r| |]|]; try apply grows_refl.
    destruct (check w nums r) as [rank|e]; cbn -[resume].
    + eapply grows_trans; [|apply resume_grows]. apply grows_record. reflexivity.
    + apply grows_record. reflexivity.
  - unfold markIssueAsChecked. destruct (marking w n labels); simpl.
    + eapply grows_trans; [|apply grows_setStore]. apply grows_record. reflexivity.
    + apply grows_record. reflexivity.
  - destruct (slots !! j) as [[nums r| |]|]; try apply grows_refl.
    apply grows_record. reflexivity.
Qed.

Lemma startAll_grows issues st : grows fanOutEvent st (startAll w issues st).2.
Proof.
  revert st. induction issues as [|i issues IH]; intros st; simpl; [apply grows_refl|].
  pose proof (startPipeline_grows i st) as H1.
  destruct (startPipeline w i st) as [p st1]. specialize (IH st1).
  destruct (startAll w issues st1) as [ps st2]. simpl in *.
  eapply grows_trans; eauto.
Qed.

Lemma startAll_store issues st : store (startAll w issues st).2 = store st.
Proof.
  revert st. induction issues as [|i issues IH]; intros st; simpl; [reflexivity|].
  pose proof (startPipeline_store i st) as H1.
  destruct (startPipeline w i st) as [p st1]. specialize (IH st1).
  destruct (startAll w issues st1) as [ps st2]. simpl in *. congruence.
Qed.

Lemma startAll_begun issues st : Forall2 (begun w) issues (startAll w issues st).1.
Proof.
  revert st. induction issues as [|i issues IH]; intros st; simpl; [constructor|].
  pose proof (startPipeline_begun w i st) as H1.
  destruct (startPipeline w i st) as [p st1]. specialize (IH st1).
  destruct (startAll w issues st1) as [ps st2]. simpl in *.
  constructor; assumption.
Qed.

Lemma resumeAll_grows ps st : grows fanOutEvent st (resumeAll w ps st).2.
Proof.
  revert st. induction ps as [|p ps IH]; intros st; simpl; [apply grows_refl|].
  pose proof (resume_grows p st) as H1.
  destruct (resume w p st) as [p1 st1]. specialize (IH st1).
  destruct (resumeAll w ps st1) as [ps1 st2]. simpl in *.
  eapply grows_trans; eauto.
Qed.

Lemma resumeAll_store ps st : store (resumeAll w ps st).2 = store st.
Proof.
  revert st. induction ps as [|p ps IH]; intros st; simpl; [reflexivity|].
  pose proof (resume_store p st) as H1.
  destruct (resume w p st) as [p1 st1]. specialize (IH st1).
  destruct (resumeAll w ps st1) as [ps1 st2]. simpl in *. congruence.
Qed.

Lemma resumeAll_good issues ps st :
  Forall2 (begun w) issues ps -> Forall2 (good w) issues (resumeAll w ps st).1.
Proof.
  intros H. revert st. induction H as [|i p issues ps Hb _ IH]; intros st; simpl;
    [constructor|].
  pose proof (resume_good w i p st Hb) as H1.
  destruct (resume w p st) as [p1 st1]. specialize (IH st1).
  destruct (resumeAll w ps st1) as [ps1 st2]. simpl in *.
  constructor; assumption.
Qed.

Lemma resumeAll_fresh issues ps st :
  Forall2 (begun w) issues ps ->
  Forall2 (fun i p => statusNow w i p = Awaiting) issues (resumeAll w ps st).1.
Proof.
  intros H. revert st. induction H as [|i p issues ps Hb _ IH]; intros st; simpl;
    [constructor|].
  pose proof (resume_fresh w i p st Hb) as H1.
  destruct (resume w p st) as [p1 st1]. specialize (IH st1).
  destruct (resumeAll w ps st1) as [ps1 st2]. simpl in *.
  constructor; assumption.
Qed.

Lemma eventLoop_grows fuel ps st :
  grows fanOutEvent st (eventLoop w fuel ps st).2.
Proof.
  apply (eventLoop_invariant w (fun _ st' => grows fanOutEvent st st'));
    [|apply grows_refl].
  intros ps' st' i j p H _ _. eapply grows_trans; [exact H|apply settle_grows].
Qed.

End FanOut.

Section FanOutStore.

Variable w : World.

Lemma settle_store_other i p j st n :
  good w i p -> n <> number i ->
  statusOf n (store (settle w j p st).2) = statusOf n (store st).
Proof.
  intros Hgood Hn. destruct p as [n' slots|n' labels|o slots]; cbn -[resume].
  - destruct (slots !! j) as [[nums r| |]|]; try reflexivity.
    destruct (check w nums r) as [rank|e]; cbn -[resume]; [|reflexivity].
    rewrite resume_store. reflexivity.
  - unfold good in Hgood. destruct (truthyBody i) as [text|]; [|discriminate].
    destruct (bodyParser w text) as [[numbers round]|e]; [|discriminate].
    destruct Hgood as [-> _]. unfold markIssueAsChecked.
    destruct (marking w (number i) labels); simpl; [|reflexivity].
    rewrite statusOf_markChecked.
    destruct (n =? number i) eqn:Heq; [|reflexivity].
    apply Z.eqb_eq in Heq. contradiction.
  - destruct (slots !! j) as [[nums r| |]|]; reflexivity.
Qed.

Lemma settle_store_own i p j st :
  good w i p -> j ∈ callsOf p ->
  statusOf (number i) (store st) = Some (statusNow w i p) ->
  statusOf (number i) (store (settle w j p st).2)
  = Some (statusNow w i (settle w j p st).1).
Proof.
  intros Hgood Hj Hst. destruct p as [n' slots|n' labels|o slots]; cbn -[resume].
  - apply elem_of_pending in Hj as (nums & r & Hj). rewrite Hj.
    destruct (check w nums r) as [rank|e]; cbn -[resume]; [|exact Hst].
    rewrite resume_store. simpl.
    destruct (ranksOf (<[j := Got rank]> slots)); exact Hst.
  - unfold good in Hgood. unfold statusNow, verdictOf.
    destruct (truthyBody i) as [text|]; [|discriminate].
    destruct (bodyParser w text) as [[numbers round]|e]; [|discriminate].
    destruct Hgood as (-> & ranks & Hranks & ->). rewrite Hranks.
    unfold markIssueAsChecked.
    destruct (marking w (number i) (labelsOf w ranks)) as [[]|e]; simpl.
    + rewrite statusOf_markChecked, Z.eqb_refl, Hst. reflexivity.
    + exact Hst.
  - apply elem_of_pending in Hj as (nums & r & Hj). rewrite Hj. exact Hst.
Qed.

Lemma fanOutInv_settle issues st0 ps st k j p :
  NoDup (map number issues) ->
  fanOutInv w issues st0 ps st -> ps !! k = Some p -> j ∈ callsOf p ->
  fanOutInv w issues st0 (<[k := (settle w j p st).1]> ps) (settle w j p st).2.
Proof.
  intros Hnd (Hgood & Hown & Hother) Hk Hj.
  destruct (Forall2_lookup_r _ _ _ _ _ Hgood Hk) as (i & Hi & Hgi).
  split; [|split].
  - rewrite <- (list_insert_id issues k i Hi).
    apply Forall2_insert; [exact Hgood|]. apply settle_good; assumption.
  - intros k' i' p' Hi' Hp'. destruct (decide (k' = k)) as [->|Hne].
    + assert (i' = i) by congruence. subst i'.
      rewrite list_lookup_insert_eq in Hp' by (eapply lookup_lt_Some; eauto).
      inversion Hp'; subst p'. apply settle_store_own; eauto.
    + rewrite list_lookup_insert_ne in Hp' by congruence.
      rewrite (settle_store_other i p j st); eauto.
      intros Heq. apply Hne.
      apply (NoDup_lookup (map number issues) k' k (number i')); [exact Hnd| |];
        rewrite list_lookup_fmap; [rewrite Hi'|rewrite Hi]; simpl; congruence.
  - intros n Hn. rewrite (settle_store_other i p j st); auto.
    intros ->. apply Hn. apply list_elem_of_fmap. exists i. split; [reflexivity|].
    eapply list_elem_of_lookup_2; eauto.
Qed.

Lemma omap_outcomes issues ps :
  Forall2 (good w) issues ps -> forallb settled ps = true ->
  Forall2 (fun i r => isRejected r = rejects (verdictOf w i))
          issues (omap outcomeOf ps).
Proof.
  induction 1 as [|i p issues ps Hg _ IH]; simpl; intros Hs; [constructor|].
  apply andb_true_iff in Hs as [Hp Hs]. destruct p as [| |o slots]; try discriminate.
  simpl. constructor; [|auto]. eapply good_settled; eauto.
Qed.

(** What [Promise.allSettled] over the pipelines of [issues] comes to:
    one outcome per ticket, rejected exactly where the ticket's own
    verdict is, every ticket in the status of its own verdict, and the
    rest of the store as it was. *)
Lemma allSettled_spec issues st :
  NoDup (map number issues) ->
  (forall i, i ∈ issues -> statusOf (number i) (store st) = Some Awaiting) ->
  exists results st',
    allSettled w issues st = (Ok results, st') /\
    Forall2 (fun i r => isRejected r = rejects (verdictOf w i)) issues results /\
    (forall i, i ∈ issues ->
       statusOf (number i) (store st') = Some (statusAfter (verdictOf w i))) /\
    (forall n, n ∉ map number issues ->
       statusOf n (store st') = statusOf n (store st)).
Proof.
  intros Hnd Hawait. unfold allSettled.
  pose proof (startAll_begun w issues st) as Hbegun.
  pose proof (startAll_store w issues st) as Hs1.
  destruct (startAll w issues st) as [ps0 st1]. simpl in *.
  pose proof (resumeAll_good w issues ps0 st1 Hbegun) as Hgood.
  pose proof (resumeAll_store w ps0 st1) as Hs2.
  pose proof (resumeAll_fresh w issues ps0 st1 Hbegun) as Hfresh.
  destruct (resumeAll w ps0 st1) as [ps1 st2]. simpl in *.
  assert (Hinv : fanOutInv w issues st ps1 st2).
  { split; [exact Hgood|]. split.
    - intros k i p Hi Hp. rewrite Hs2, Hs1.
      rewrite Hawait by (eapply list_elem_of_lookup_2; eauto).
      f_equal. symmetry. exact (Forall2_lookup_lr _ _ _ _ _ _ Hfresh Hi Hp).
    - intros n _. congruence. }
  pose proof (eventLoop_invariant w (fanOutInv w issues st)
                (fun ps' st' k j p H1 H2 H3 =>
                   fanOutInv_settle issues st ps' st' k j p Hnd H1 H2 H3)
                (turns ps1) ps1 st2 Hinv) as (Hgood3 & Hown3 & Hother3).
  pose proof (eventLoop_settles w (turns ps1) ps1 st2) as Hsettled.
  destruct (eventLoop w (turns ps1) ps1 st2) as [ps2 st3]. simpl in *.
  assert (Hs : forallb settled ps2 = true).
  { apply Hsettled; [|lia].
    apply Forall_lookup_2. intros k p Hk.
    destruct (Forall2_lookup_r _ _ _ _ _ Hgood Hk) as (i & _ & Hg).
    eapply good_ready; eauto. }
  eexists _, _. split; [reflexivity|]. split; [|split].
  - apply omap_outcomes; assumption.
  - intros i Hi. simpl. apply list_elem_of_lookup in Hi as [k Hk].
    destruct (Forall2_lookup_l _ _ _ _ _ Hgood3 Hk) as (p & Hp & Hg).
    rewrite (Hown3 k i p Hk Hp). f_equal.
    assert (Hps : settled p = true).
    { rewrite forallb_forall in Hs. apply Hs. apply list_elem_of_In.
      eapply list_elem_of_lookup_2; eauto. }
    destruct p as [| |o slots]; try discriminate.
    pose proof (good_settled w i o slots Hg) as Hrej.
    destruct o as [[]|e]; [reflexivity|]. simpl in *.
    destruct (verdictOf w i); try discriminate. reflexivity.
  - intros n Hn. simpl. apply Hother3. exact Hn.
Qed.

End FanOutStore.

Lemma grows_advances P st st' : grows P st st' -> advances P st st'.
Proof. intros (H & _ & B & _). split; auto. Qed.

Lemma advances_refl P st : advances P st st.
Proof. apply grows_advances, grows_refl. Qed.

Lemma advances_trans P st1 st2 st3 :
  advances P st1 st2 -> advances P st2 st3 -> advances P st1 st3.
Proof.
  intros [(e1 & H1 & F1) B1] [(e2 & H2 & F2) B2].
  split; [|congruence].
  exists (e1 ++ e2). rewrite H2, H1, <- app_assoc. split; [reflexivity|].
  rewrite forallb_app, F1, F2. reflexivity.
Qed.

Lemma advances_weaken (P Q : event -> bool) st st' :
  (forall e, P e = true -> Q e = true) -> advances P st st' -> advances Q st st'.
Proof.
  intros HPQ [(evs & Ht & Hf) Hrest]. split; [|exact Hrest].
  exists evs. split; [exact Ht|].
  rewrite forallb_forall in *. auto.
Qed.

Lemma advances_record (P : event -> bool) evs st :
  forallb P evs = true -> advances P st (record evs st).
Proof. intros H. apply grows_advances, grows_record, H. Qed.

Section Join.

Variable w : World.

(** The join: [Promise.allSettled] resolves, with one outcome per
    ticket, whatever the pipelines come to. *)
Lemma allSettled_outcomes issues st :
  exists results,
    (allSettled w issues st).1 = Ok results /\
    Forall2 (fun i r => isRejected r = rejects (verdictOf w i)) issues results.
Proof.
  unfold allSettled.
  pose proof (startAll_begun w issues st) as Hbegun.
  destruct (startAll w issues st) as [ps0 st1]. simpl in *.
  pose proof (resumeAll_good w issues ps0 st1 Hbegun) as Hgood.
  destruct (resumeAll w ps0 st1) as [ps1 st2]. simpl in *.
  assert (Hinv : Forall2 (good w) issues (eventLoop w (turns ps1) ps1 st2).1).
  { apply (eventLoop_invariant w (fun ps _ => Forall2 (good w) issues ps));
      [|exact Hgood].
    intros ps' st' k j p Hg Hk Hj.
    destruct (Forall2_lookup_r _ _ _ _ _ Hg Hk) as (i & Hi & Hgi).
    rewrite <- (list_insert_id issues k i Hi).
    apply Forall2_insert; [exact Hg|]. apply settle_good; assumption. }
  pose proof (eventLoop_settles w (turns ps1) ps1 st2) as Hsettled.
  destruct (eventLoop w (turns ps1) ps1 st2) as [ps2 st3]. simpl in *.
  eexists. split; [reflexivity|]. apply omap_outcomes; [exact Hinv|].
  apply Hsettled; [|lia]. apply Forall_lookup_2. intros k p Hk.
  destruct (Forall2_lookup_r _ _ _ _ _ Hgood Hk) as (i & _ & Hg).
  eapply good_ready; eauto.
Qed.

Lemma allSettled_advances issues st :
  advances fanOutEvent st (allSettled w issues st).2.
Proof.
  unfold allSettled.
  pose proof (startAll_grows w issues st) as H1.
  destruct (startAll w issues st) as [ps0 st1]. simpl in *.
  pose proof (resumeAll_grows w ps0 st1) as H2.
  destruct (resumeAll w ps0 st1) as [ps1 st2]. simpl in *.
  pose proof (eventLoop_grows w (turns ps1) ps1 st2) as H3.
  destruct (eventLoop w (turns ps1) ps1 st2) as [ps2 st3]. simpl in *.
  pose proof (grows_trans _ _ _ _ (grows_trans _ _ _ _ H1 H2) H3) as (Ht & _ & B & _).
  split; [exact Ht|]. simpl. auto.
Qed.






End Join.

(** ** [runWinningCheck] *)

Lemma NoDup_number_inj s i i' :
  NoDup (map number s) -> i ∈ s -> i' ∈ s -> number i = number i' -> i = i'.
Proof.
  intros Hnd Hi Hi' Heq.
  apply list_elem_of_lookup in Hi as [k Hk]. apply list_elem_of_lookup in Hi' as [k' Hk'].
  assert (k = k').
  { apply (NoDup_lookup (map number s) k k' (number i)); [exact Hnd| |];
      rewrite list_lookup_fmap; [rewrite Hk|rewrite Hk']; simpl; congruence. }
  congruence.
Qed.

Section Checker.

Variable w : World.

Lemma rejected_count issues results :
  Forall2 (fun i r => isRejected r = rejects (verdictOf w i)) issues results ->
  length (List.filter isRejected results) = failures w issues.
Proof.
  unfold failures. induction 1 as [|i r issues results Hr _ IH]; simpl; [reflexivity|].
  rewrite <- Hr. destruct (isRejected r); simpl; congruence.
Qed.

Lemma runWinningCheck_throws st e :
  listing w = Throw e ->
  runWinningCheck w st =
  (Throw e, record [Start GetWaitingIssues; Finish GetWaitingIssues false]
              (record [Info CheckingResults] st)).
Proof.
  intros H. unfold runWinningCheck, bind, info, log, getWaitingIssues, await.
  rewrite H. reflexivity.
Qed.

(** The checker returns normally and logs the number of rejected
    pipelines, whatever the pipelines come to. *)
Lemma runWinningCheck_trace st :
  isOk (listing w) = true ->
  exists evs st',
    runWinningCheck w st = (Ok tt, st') /\
    forallb fanOutEvent evs = true /\
    trace st' = trace st ++ checkerTrace w (awaiting (store st)) evs /\
    exited st' = exited st.
Proof.
  intros Hl. unfold runWinningCheck, bind, info, log, getWaitingIssues, await.
  destruct (listing w) as [[]|e]; [|discriminate]. cbn -[allSettled Nat.ltb awaiting].
  destruct (awaiting (store st)) as [|i0 issues] eqn:Hissues.
  - exists []. eexists. simpl. split; [reflexivity|]. split; [reflexivity|].
    simpl. rewrite <- !app_assoc. auto.
  - change (0 <? length (i0 :: issues))%nat with true. cbn beta iota.
    set (st1 := record [Info (CheckingCount _)] _).
    destruct (allSettled_outcomes w (i0 :: issues) st1) as (results & Hres & Hout).
    pose proof (allSettled_advances w (i0 :: issues) st1) as [(evs & Ht & Hevs) Hx].
    destruct (allSettled w (i0 :: issues) st1) as [r st2]. simpl in Hres. subst r.
    rewrite (rejected_count _ _ Hout).
    exists evs. unfold checkerTrace.
    destruct (0 <? failures w (i0 :: issues))%nat; simpl;
      eexists; (split; [reflexivity|]); (split; [exact Hevs|]); simpl;
      simpl in Ht; rewrite Ht; simpl; rewrite <- ?app_assoc; simpl;
      rewrite ?app_nil_r; auto.
Qed.

(** Every ticket of the store ends in the status of its own verdict. *)
Lemma runWinningCheck_store st :
  NoDup (map number (store st)) -> isOk (listing w) = true ->
  forall i, i ∈ store st ->
    statusOf (number i) (store (runWinningCheck w st).2) =
    Some (if isAwaiting i then statusAfter (verdictOf w i) else status i).
Proof.
  intros Hnd Hl i Hi.
  unfold runWinningCheck, bind, info, log, getWaitingIssues, await.
  destruct (listing w) as [[]|e]; [|discriminate]. cbn -[allSettled Nat.ltb awaiting].
  assert (Hsame : forall i', i' ∈ store st -> isAwaiting i' = false ->
            statusOf (number i') (store st) = Some (status i')).
  { intros. apply statusOf_elem; assumption. }
  destruct (awaiting (store st)) as [|i0 issues] eqn:Hissues.
  - simpl. destruct (isAwaiting i) eqn:Ha; [|auto].
    assert (Hin : i ∈ awaiting (store st)).
    { apply elem_of_awaiting. split; [exact Hi|].
      unfold isAwaiting in Ha. destruct (status i); [reflexivity|discriminate]. }
    rewrite Hissues in Hin. inversion Hin.
  - change (0 <? length (i0 :: issues))%nat with true. cbn beta iota.
    set (st1 := record [Info (CheckingCount _)] _).
    destruct (allSettled_spec w (i0 :: issues) st1) as (results & st2 & Heq & _ & Hown & Hother).
    { rewrite <- Hissues. apply NoDup_awaiting, Hnd. }
    { intros i' Hi'. rewrite <- Hissues in Hi'. apply elem_of_awaiting in Hi' as [Hi' Hs].
      simpl. rewrite statusOf_elem by assumption. congruence. }
    rewrite Heq.
    replace (store _) with (store st2)
      by (destruct (0 <? length (List.filter isRejected results))%nat; reflexivity).
    destruct (isAwaiting i) eqn:Ha.
    + apply Hown. rewrite <- Hissues. apply elem_of_awaiting. split; [exact Hi|].
      unfold isAwaiting in Ha. destruct (status i); [reflexivity|discriminate].
    + rewrite Hother; [apply Hsame; assumption|].
      intros Hin. apply list_elem_of_fmap in Hin as (i' & Heqn & Hi').
      rewrite <- Hissues in Hi'. apply elem_of_awaiting in Hi' as [Hi' Hs].
      assert (i = i') by (eapply NoDup_number_inj; eauto). subst i'.
      unfold isAwaiting in Ha. rewrite Hs in Ha. discriminate.
Qed.

End Checker.

(** ** [runPurchase] *)

Section Purchase.

Variable w : World.

(** The [try] block of [runPurchase] fails as soon as one of its steps
    does, and creates the ticket only as its last step. *)
Lemma purchaseBody_cases st :
  let amount := purchaseAmount w in
  let purchased := record [Start (Purchase amount);
                           Finish (Purchase amount) (isOk (purchase w amount))] st in
  match purchase w amount with
  | Throw e => purchaseBody w st = (Throw e, purchased)
  | Ok numbers =>
      match getCurrentLottoRound w with
      | Throw e => purchaseBody w st = (Throw e, record [Info Purchased] purchased)
      | Ok current =>
          match getCheckWinningLink w (current + 1) numbers with
          | Throw e => purchaseBody w st = (Throw e, record [Info Purchased] purchased)
          | Ok link =>
              let st1 := record [Info CreatingIssue] (record [Info Purchased] purchased) in
              match bodyBuilder w (today w) (current + 1) numbers link with
              | Throw e => purchaseBody w st = (Throw e, st1)
              | Ok issueBody =>
                  let c := CreateWaitingIssue (today w) issueBody in
                  match creating w (today w) issueBody with
                  | Throw e =>
                      purchaseBody w st =
                      (Throw e, record [Start c; Finish c false] st1)
                  | Ok _ =>
                      purchaseBody w st =
                      (Ok tt,
                       record [Info IssueCreated]
                         (setStore (addWaiting (today w) issueBody (store st))
                            (record [Start c; Finish c true] st1)))
                  end
              end
          end
      end
  end.
Proof.
  unfold purchaseBody, bind, await, lift, info, log, createWaitingIssue. cbn zeta.
  destruct (purchase w (purchaseAmount w)) as [numbers|e]; [|reflexivity].
  destruct (getCurrentLottoRound w) as [current|e]; [|reflexivity].
  destruct (getCheckWinningLink w (current + 1) numbers) as [link|e]; [|reflexivity].
  destruct (bodyBuilder w (today w) (current + 1) numbers link) as [issueBody|e];
    [|reflexivity].
  destruct (creating w (today w) issueBody) as [[]|e]; reflexivity.
Qed.

Lemma purchaseBody_after st :
  advances purchaseEvent
    (record [Start (Purchase (purchaseAmount w));
             Finish (Purchase (purchaseAmount w)) (isOk (purchase w (purchaseAmount w)))] st)
    (purchaseBody w st).2.
Proof.
  pose proof (purchaseBody_cases st) as H. cbn zeta in H.
  set (purchased := record _ st) in *.
  destruct (purchase w (purchaseAmount w)) as [numbers|e];
    [|rewrite H; apply advances_refl].
  assert (H1 : advances purchaseEvent purchased (record [Info Purchased] purchased))
    by (apply advances_record; reflexivity).
  destruct (getCurrentLottoRound w) as [current|e]; [|rewrite H; apply H1].
  destruct (getCheckWinningLink w (current + 1) numbers) as [link|e];
    [|rewrite H; apply H1].
  assert (H2 : advances purchaseEvent purchased
                 (record [Info CreatingIssue] (record [Info Purchased] purchased))).
  { eapply advances_trans; [apply H1|]. apply advances_record. reflexivity. }
  destruct (bodyBuilder w (today w) (current + 1) numbers link) as [issueBody|e];
    [|rewrite H; apply H2].
  destruct (creating w (today w) issueBody) as [[]|e]; rewrite H; cbn [snd].
  - eapply advances_trans; [|apply advances_record; reflexivity].
    eapply advances_trans; [|apply grows_advances, grows_setStore].
    eapply advances_trans; [apply H2|]. apply advances_record. reflexivity.
  - eapply advances_trans; [apply H2|]. apply advances_record. reflexivity.
Qed.

Lemma purchaseBody_advances st :
  advances purchaseEvent st (purchaseBody w st).2.
Proof.
  eapply advances_trans; [|apply purchaseBody_after].
  apply advances_record. reflexivity.
Qed.

(** A failing [try] block has created no ticket and has not released the
    session. *)
Lemma purchaseBody_throws st e :
  (purchaseBody w st).1 = Throw e ->
  store (purchaseBody w st).2 = store st /\
  exitCode (purchaseBody w st).2 = exitCode st /\
  exists evs, trace (purchaseBody w st).2 = trace st ++ evs /\
              forallb (fun e => negb (isRelease e || isCreated e || isFailureReport e)) evs = true.
Proof.
  pose proof (purchaseBody_cases st) as H. cbn zeta in H.
  destruct (purchase w (purchaseAmount w)) as [numbers|e1].
  2:{ rewrite H. intros _. repeat split; eexists; simpl; split; reflexivity. }
  destruct (getCurrentLottoRound w) as [current|e1].
  2:{ rewrite H. intros _. repeat split. eexists. simpl. rewrite <- app_assoc.
      split; reflexivity. }
  destruct (getCheckWinningLink w (current + 1) numbers) as [link|e1].
  2:{ rewrite H. intros _. repeat split. eexists. simpl. rewrite <- app_assoc.
      split; reflexivity. }
  destruct (bodyBuilder w (today w) (current + 1) numbers link) as [issueBody|e1].
  2:{ rewrite H. intros _. repeat split. eexists. simpl. rewrite <- !app_assoc.
      split; reflexivity. }
  destruct (creating w (today w) issueBody) as [[]|e1]; rewrite H; [discriminate|].
  intros _. repeat split. eexists. simpl. rewrite <- !app_assoc.
  split; reflexivity.
Qed.

(** The [catch] of [runPurchase]: the session is released first, and
    the failure is reported only for an [Error]. *)
Lemma runPurchase_cases st :
  match purchaseBody w (record [Info Purchasing] st) with
  | (Ok _, st1) => runPurchase w st = (Ok tt, st1)
  | (Throw e, st1) =>
      let released := record [Start Destroy; Finish Destroy (isOk (destroy w))] st1 in
      match destroy w with
      | Throw e' => runPurchase w st = (Throw e', released)
      | Ok _ =>
          if instanceofError e
          then runPurchase w st =
               (Ok tt, (setFailed (message e)
                          (record [Info (PurchaseFailed (toString e))] released)).2)
          else runPurchase w st = (Ok tt, released)
      end
  end.
Proof.
  unfold runPurchase, bind, info, log, try.
  destruct (purchaseBody w (record [Info Purchasing] st)) as [[[]|e] st1]; [reflexivity|].
  unfold await. destruct (destroy w) as [[]|e']; cbn zeta; [|reflexivity].
  destruct (instanceofError e); reflexivity.
Qed.

Lemma runPurchase_after st :
  advances purchaseEvent (purchaseBody w (record [Info Purchasing] st)).2
    (runPurchase w st).2.
Proof.
  unfold runPurchase, bind, info, log, try.
  destruct (purchaseBody w (record [Info Purchasing] st)) as [[[]|e] st1]; cbn [fst snd].
  - apply advances_refl.
  - unfold await. destruct (destroy w) as [[]|e']; cbn [fst snd isOk].
    + destruct (instanceofError e); cbn [fst snd].
      * split; [|reflexivity]. eexists. simpl. rewrite <- !app_assoc. simpl.
        split; reflexivity.
      * apply advances_record. reflexivity.
    + apply advances_record. reflexivity.
Qed.

Lemma runPurchase_advances st : advances purchaseEvent st (runPurchase w st).2.
Proof.
  eapply advances_trans; [|apply runPurchase_after].
  eapply advances_trans; [|apply purchaseBody_advances].
  apply advances_record. reflexivity.
Qed.

(** The first thing [runPurchase] does after its log line is to call
    [service.purchase] with the amount of lines 94-95. *)
Lemma runPurchase_starts st :
  exists evs,
    trace (runPurchase w st).2 =
    trace st ++ [Info Purchasing; Start (Purchase (purchaseAmount w))] ++ evs.
Proof.
  destruct (runPurchase_after st) as [(e2 & H2 & _) _].
  destruct (purchaseBody_after (record [Info Purchasing] st)) as [(e1 & H1 & _) _].
  eexists. rewrite H2, H1. simpl. rewrite <- !app_assoc. simpl. reflexivity.
Qed.

End Purchase.

(** ** [run] *)

Section Run.

Variable w : World.

Lemma runInitRepo_cases st :
  runInitRepo w st =
  (initLabels w, record [Start InitLabels; Finish InitLabels (isOk (initLabels w))] st).
Proof. reflexivity. Qed.

Lemma runInitRepo_advances st : advances setupEvent st (runInitRepo w st).2.
Proof. rewrite runInitRepo_cases. apply advances_record. reflexivity. Qed.

Lemma runActionsEnvironments_grows st :
  grows setupEvent st (runActionsEnvironments w st).2.
Proof.
  unfold runActionsEnvironments, bind, info, log, await, lift.
  destruct (installBrowser w) as [[]|e]; simpl.
  2:{ eapply grows_trans; apply grows_record; reflexivity. }
  destruct (newLottoService w) as [[]|e]; simpl.
  2:{ eapply grows_trans; [eapply grows_trans|]; apply grows_record; reflexivity. }
  destruct (negb (String.eqb (getInput w lottoId) "") &&
            negb (String.eqb (getInput w lottoPassword) "")); simpl.
  - eapply grows_trans; [eapply grows_trans; [eapply grows_trans|]|];
      apply grows_record; reflexivity.
  - eapply grows_trans; [eapply grows_trans|]; apply grows_record; reflexivity.
Qed.

Lemma checkerTrace_events issues evs :
  forallb fanOutEvent evs = true ->
  forallb checkerEvent (checkerTrace w issues evs) = true.
Proof.
  intros H. unfold checkerTrace. destruct issues as [|i issues]; [reflexivity|].
  simpl. rewrite forallb_app. apply andb_true_iff. split.
  - rewrite forallb_forall in *. intros e He. unfold checkerEvent.
    rewrite (H e He). reflexivity.
  - destruct (0 <? failures w (i :: issues))%nat; reflexivity.
Qed.

Lemma runWinningCheck_advances st :
  advances checkerEvent st (runWinningCheck w st).2.
Proof.
  destruct (listing w) as [[]|e] eqn:Hl.
  - destruct (runWinningCheck_trace w st) as (evs & st' & Heq & Hevs & Ht & Hx).
    { rewrite Hl. reflexivity. }
    rewrite Heq. split; [|exact Hx]. eexists. split; [exact Ht|].
    apply checkerTrace_events, Hevs.
  - rewrite (runWinningCheck_throws w st e Hl).
    eapply advances_trans; apply advances_record; reflexivity.
Qed.


Lemma beforePurchase_advances st :
  advances (fun e => setupEvent e || checkerEvent e) st (beforePurchase w st).2.
Proof.
  unfold beforePurchase, bind.
  pose proof (runInitRepo_advances st) as H1.
  destruct (runInitRepo w st) as [[[]|e] st1]; simpl in *.
  2:{ eapply advances_weaken; [|exact H1]. intros ? ->. reflexivity. }
  pose proof (grows_advances _ _ _ (runActionsEnvironments_grows st1)) as H2.
  destruct (runActionsEnvironments w st1) as [[[]|e] st2]; simpl in *.
  2:{ eapply advances_weaken; [|eapply advances_trans; eauto]. intros ? ->. reflexivity. }
  pose proof (runWinningCheck_advances st2) as H3.
  eapply advances_trans; [eapply advances_trans|].
  - eapply advances_weaken; [|exact H1]. intros ? ->. reflexivity.
  - eapply advances_weaken; [|exact H2]. intros ? ->. reflexivity.
  - eapply advances_weaken; [|exact H3]. intros ? ->. apply orb_true_r.
Qed.


(** [runPurchase] is called when, and only when, everything before it
    has returned. *)
Lemma runBody_split st :
  runBody w st =
  match beforePurchase w st with
  | (Ok _, st1) => runPurchase w st1
  | (Throw e, st1) => (Throw e, st1)
  end.
Proof.
  unfold runBody, beforePurchase, bind.
  destruct (runInitRepo w st) as [[[]|e] st1]; [|reflexivity].
  destruct (runActionsEnvironments w st1) as [[[]|e] st2]; [|reflexivity].
  destruct (runWinningCheck w st2) as [[[]|e] st3]; reflexivity.
Qed.

(** The [catch] and [finally] of [run]. *)
Lemma run_cases st :
  run w st =
  match runBody w st with
  | (Ok _, st1) => exit 0 st1
  | (Throw e, st1) =>
      if instanceofError e
      then exit 0 (setFailed (message e) (record [Info (RunFailed (toString e))] st1)).2
      else exit 0 st1
  end.
Proof.
  unfold run, try. destruct (runBody w st) as [[[]|e] st1]; [reflexivity|].
  destruct (instanceofError e); reflexivity.
Qed.

End Run.

(** ** [Number(string)] on some inputs *)

Example Number_0 : Js.Number "0" = Js.ofZ 0. Proof. reflexivity. Qed.
Example Number_7 : Js.Number "7" = Js.ofZ 7. Proof. reflexivity. Qed.
Example Number_abc : Js.Number "abc" = Js.NaN. Proof. reflexivity. Qed.
Example Number_empty : Js.Number "" = Js.ofZ 0. Proof. reflexivity. Qed.
Example Number_frac : Js.Number " 2.5 " = Js.Num (5 # 2). Proof. reflexivity. Qed.
Example Number_exp : Js.Number "-12.5e-1" = Js.Num (-5 # 4). Proof. reflexivity. Qed.
Example Number_hex : Js.Number "0x1F" = Js.ofZ 31. Proof. reflexivity. Qed.
Example Number_neg_hex : Js.Number "-0x1F" = Js.NaN. Proof. reflexivity. Qed.
Example Number_inf : Js.Number "-Infinity" = Js.NegInf. Proof. reflexivity. Qed.
Example Number_dot : Js.Number "." = Js.NaN. Proof. reflexivity. Qed.
Example Number_sep : Js.Number "1_000" = Js.NaN. Proof. reflexivity. Qed.
Example Number_e : Js.Number "1e" = Js.NaN. Proof. reflexivity. Qed.
Example Number_5dot : Js.Number "5.e1" = Js.ofZ 50. Proof. reflexivity. Qed.

(** * Theorems *)

(** ** The purchase amount *)

(** Whatever the input, the amount asked of [service.purchase] is a
    number between 1 and 5. *)
Lemma purchaseAmount_range (w : World) :
  exists q, purchaseAmount w = Js.Num q /\
            Qle_bool (inject_Z 1) q = true /\ Qle_bool q (inject_Z 5) = true.
Proof.
  unfold purchaseAmount, Js.logicalOr.
  destruct (Js.Number (getInput w lottoPurchaseAmount)) as [| | |q]; simpl;
    try (eexists; split; [reflexivity|split; reflexivity]).
  destruct (Qnum q =? 0); simpl;
    [eexists; split; [reflexivity|split; reflexivity]|].
  unfold Js.ofZ. destruct (Qle_bool q (inject_Z 5)) eqn:H5; simpl.
  - destruct (Qle_bool (inject_Z 1) q) eqn:H1; simpl.
    + exists q. auto.
    + exists (inject_Z 1). auto.
  - exists (inject_Z 5). auto.
Qed.

Example purchaseAmount_7 init p c m b s :
  purchaseAmount (worldWith init "7" p c m b s) = Js.ofZ 5.
Proof. reflexivity. Qed.

Example purchaseAmount_abc init p c m b s :
  purchaseAmount (worldWith init "abc" p c m b s) = Js.ofZ 5.
Proof. reflexivity. Qed.

Example purchaseAmount_3 init p c m b s :
  purchaseAmount (worldWith init "3" p c m b s) = Js.ofZ 3.
Proof. reflexivity. Qed.

Example purchaseAmount_absent init p c m b s :
  purchaseAmount (worldWith init "" p c m b s) = Js.ofZ 5.
Proof. reflexivity. Qed.

Example purchaseAmount_negative init p c m b s :
  purchaseAmount (worldWith init "-2" p c m b s) = Js.ofZ 1.
Proof. reflexivity. Qed.

(** C1: with the purchase-amount input "0", [Number("0")] is 0, which is
    falsy, so [|| 5] replaces it by the default before the clamp is
    applied: the amount passed to [service.purchase] is 5, not 1. *)
Theorem amount_zero_buys_five (w : World) (st : state) :
  getInput w lottoPurchaseAmount = "0" ->
  purchaseAmount w = Js.ofZ 5 /\
  purchaseAmount w <> Js.ofZ 1 /\
  exists evs,
    trace (runPurchase w st).2 =
    trace st ++ [Info Purchasing; Start (Purchase (Js.ofZ 5))] ++ evs.
Proof.
  intros Hinput.
  assert (Hamount : purchaseAmount w = Js.ofZ 5).
  { unfold purchaseAmount. rewrite Hinput. reflexivity. }
  split; [exact Hamount|]. split; [rewrite Hamount; discriminate|].
  rewrite <- Hamount. apply runPurchase_starts.
Qed.

Lemma amount_zero_buys_five_witness :
  getInput (worldWith (Ok tt) "0" toyParser toyChecker (fun _ _ => Ok tt) toyBuyer
              (fun _ => 0%nat)) lottoPurchaseAmount = "0" /\
  purchaseAmount (worldWith (Ok tt) "0" toyParser toyChecker (fun _ _ => Ok tt) toyBuyer
                    (fun _ => 0%nat)) = Js.ofZ 5.
Proof.
  split; [reflexivity|].
  apply (amount_zero_buys_five
           (worldWith (Ok tt) "0" toyParser toyChecker (fun _ _ => Ok tt) toyBuyer
              (fun _ => 0%nat)) (storeOf [])).
  reflexivity.
Defined.

(** ** The exit status *)


(** The failure signal does not change the exit status: a purchase that
    fails with an [Error] sets [process.exitCode] to 1, and the process
    still exits with 0. *)
Example failed_run_exits_with_success :
  let w := worldWith (Ok tt) "" toyParser toyChecker (fun _ _ => Ok tt)
             (fun _ => Throw (JsError "Error" "sold out")) (fun _ => 0%nat) in
  exitCode (run w (storeOf [])) = Some 1 /\
  exited (run w (storeOf [])) = Some 0 /\
  In (SetFailed "sold out") (trace (run w (storeOf []))).
Proof. vm_compute. intuition. Qed.

(** ** The checker with nothing to check *)

(** C7: when [getWaitingIssues] returns no ticket, [runWinningCheck]
    returns normally having only logged: no check is called, the store
    is not written, and no failure is logged. *)
Theorem empty_awaiting_noop (w : World) (st : state) :
  (getWaitingIssues w st).1 = Ok [] ->
  (runWinningCheck w st).1 = Ok tt /\
  store (runWinningCheck w st).2 = store st /\
  inflight (runWinningCheck w st).2 = inflight st /\
  trace (runWinningCheck w st).2 =
  trace st ++ [Info CheckingResults; Start GetWaitingIssues;
               Finish GetWaitingIssues true; Info NothingToCheck].
Proof.
  unfold getWaitingIssues, await, runWinningCheck, bind, info, log,
    getWaitingIssues, await.
  destruct (listing w) as [[]|e]; [|discriminate].
  cbn -[Nat.ltb awaiting allSettled]. intros Hempty. inversion Hempty as [Hnil].
  rewrite Hnil. simpl. rewrite <- !app_assoc. auto.
Qed.

Lemma empty_awaiting_noop_witness :
  (getWaitingIssues calm (storeOf [])).1 = Ok [] /\
  trace (runWinningCheck calm (storeOf [])).2 =
  [Info CheckingResults; Start GetWaitingIssues;
   Finish GetWaitingIssues true; Info NothingToCheck].
Proof.
  split; [reflexivity|].
  apply (empty_awaiting_noop calm (storeOf [])). reflexivity.
Defined.

(** ** The purchase *)

(** C3: if the purchase call fails, or any later step of the [try]
    block of [runPurchase] does, the store is left as it was, no ticket
    creation succeeds, and [service.destroy] is called exactly once: in
    [runPurchase], and in the whole of a run that comes to call it. *)
Theorem purchase_atomicity (w : World) (st : state) (e : thrown) :
  purchase w (purchaseAmount w) = Throw e \/
  (purchaseBody w (record [Info Purchasing] st)).1 = Throw e ->
  (store (runPurchase w st).2 = store st /\
   exists evs,
     trace (runPurchase w st).2 = trace st ++ evs /\
     length (List.filter isRelease evs) = 1%nat /\
     List.filter isCreated evs = []) /\
  (forall st0,
     beforePurchase w st0 = (Ok tt, st) ->
     store (run w st0) = store st /\
     exists evs,
       trace (run w st0) = trace st0 ++ evs /\
       length (List.filter isRelease evs) = 1%nat /\
       List.filter isCreated evs = []).
Proof.
  intros H.
  assert (Hbody : (purchaseBody w (record [Info Purchasing] st)).1 = Throw e).
  { destruct H as [H|H]; [|exact H].
    pose proof (purchaseBody_cases w (record [Info Purchasing] st)) as Hc.
    cbn zeta in Hc. rewrite H in Hc. rewrite Hc. reflexivity. }
  clear H.
  assert (Hpurchase : store (runPurchase w st).2 = store st /\
            exists evs,
              trace (runPurchase w st).2 = trace st ++ evs /\
              length (List.filter isRelease evs) = 1%nat /\
              List.filter isCreated evs = []).
  { destruct (purchaseBody_throws w _ e Hbody) as (Hstore & _ & evs & Ht & Hevs).
    pose proof (runPurchase_cases w st) as Hrun.
    destruct (purchaseBody w (record [Info Purchasing] st)) as [[[]|e0] st1];
      [discriminate|]. simpl in Hstore, Ht, Hbody. cbn zeta in Hrun.
    assert (Hrel : List.filter isRelease evs = []).
    { eapply filter_none; [|exact Hevs]. intros ev Hev.
      apply negb_true_iff in Hev. apply orb_false_iff in Hev as [Hev _].
      apply orb_false_iff in Hev as [Hr _]. exact Hr. }
    assert (Hcre : List.filter isCreated evs = []).
    { eapply filter_none; [|exact Hevs]. intros ev Hev.
      apply negb_true_iff in Hev. apply orb_false_iff in Hev as [Hev _].
      apply orb_false_iff in Hev as [_ Hc]. exact Hc. }
    destruct (destroy w) as [[]|e'].
    - destruct (instanceofError e0); rewrite Hrun; simpl; (split; [exact Hstore|]);
        eexists; rewrite Ht; simpl; rewrite <- !app_assoc;
        (split; [reflexivity|]); simpl;
        rewrite !List.filter_app, Hrel, Hcre; auto.
    - rewrite Hrun; simpl; (split; [exact Hstore|]).
      eexists; rewrite Ht; simpl; rewrite <- !app_assoc.
      split; [reflexivity|]. simpl. rewrite !List.filter_app, Hrel, Hcre. auto. }
  split; [exact Hpurchase|].
  intros st0 Hbefore. destruct Hpurchase as (Hstore & evs & Ht & Hrel & Hcre).
  destruct (beforePurchase_advances w st0) as [(pre & Hpre & Hevs) _].
  rewrite Hbefore in Hpre. simpl in Hpre.
  assert (Hpre1 : List.filter isRelease pre = []).
  { eapply filter_none; [|exact Hevs].
    intros [[]| | | | |[]|[]] H; try reflexivity; discriminate. }
  assert (Hpre2 : List.filter isCreated pre = []).
  { eapply filter_none; [|exact Hevs].
    intros [[]| | | | |[]|[] []] H; try reflexivity; discriminate. }
  rewrite run_cases, runBody_split, Hbefore.
  destruct (runPurchase w st) as [[[]|e1] st2]; simpl in Hstore, Ht.
  - split; [exact Hstore|]. exists (pre ++ evs ++ [Exit 0]). simpl.
    rewrite Ht, Hpre, <- !app_assoc. split; [reflexivity|].
    rewrite !List.filter_app, Hpre1, Hpre2, Hcre, !length_app, Hrel. auto.
  - destruct (instanceofError e1); simpl; (split; [exact Hstore|]).
    + exists (pre ++ evs ++ [Info (RunFailed (toString e1)); SetFailed (message e1); Exit 0]).
      rewrite Ht, Hpre, <- !app_assoc. simpl. split; [reflexivity|].
      rewrite !List.filter_app, Hpre1, Hpre2, Hcre, !length_app, Hrel. auto.
    + exists (pre ++ evs ++ [Exit 0]).
      rewrite Ht, Hpre, <- !app_assoc. split; [reflexivity|].
      rewrite !List.filter_app, Hpre1, Hpre2, Hcre, !length_app, Hrel. auto.
Qed.

Lemma purchase_atomicity_witness :
  let w := worldWith (Ok tt) "3" toyParser toyChecker (fun _ _ => Ok tt)
             (fun _ => Throw (JsError "Error" "sold out")) (fun _ => 0%nat) in
  purchase w (purchaseAmount w) = Throw (JsError "Error" "sold out") /\
  store (runPurchase w (storeOf [waiting 1 (Some "A")])).2 = [waiting 1 (Some "A")].
Proof.
  split; [reflexivity|].
  apply (proj1 (purchase_atomicity
           (worldWith (Ok tt) "3" toyParser toyChecker (fun _ _ => Ok tt)
              (fun _ => Throw (JsError "Error" "sold out")) (fun _ => 0%nat))
           (storeOf [waiting 1 (Some "A")]) (JsError "Error" "sold out")
           (or_introl eq_refl))).
Defined.

(** A run in which the purchase fails: the awaiting ticket is checked,
    nothing is created, and the session is released once. *)
Example failed_purchase_run :
  let w := worldWith (Ok tt) "3" toyParser toyChecker (fun _ _ => Ok tt)
             (fun _ => Throw (JsError "Error" "sold out")) (fun _ => 0%nat) in
  map number (store (run w (storeOf [waiting 1 (Some "A")]))) = [1] /\
  List.filter isRelease (trace (run w (storeOf [waiting 1 (Some "A")]))) = [Start Destroy] /\
  List.filter isCreated (trace (run w (storeOf [waiting 1 (Some "A")]))) = [].
Proof. vm_compute. auto. Qed.

(** ** Thrown values that are not errors *)

(** A run whose [try] block throws has reported no failure so far. *)
Lemma runBody_throws (w : World) (st : state) (e : thrown) :
  (runBody w st).1 = Throw e ->
  exists evs, trace (runBody w st).2 = trace st ++ evs /\
              forallb (fun ev => negb (isFailureReport ev)) evs = true.
Proof.
  rewrite runBody_split.
  destruct (beforePurchase_advances w st) as [(evs0 & Ht0 & Hevs0) _].
  assert (Hevs0' : forallb (fun ev => negb (isFailureReport ev)) evs0 = true).
  { eapply forallb_impl; [|exact Hevs0].
    intros [[]| | | | |[]|[]] H; try reflexivity; discriminate. }
  destruct (beforePurchase w st) as [[[]|e0] st1]; simpl in Ht0.
  2:{ intros _. exists evs0. auto. }
  pose proof (runPurchase_cases w st1) as Hrun.
  pose proof (purchaseBody_throws w (record [Info Purchasing] st1)) as Hbody.
  destruct (purchaseBody w (record [Info Purchasing] st1)) as [[[]|e1] st2].
  { rewrite Hrun. discriminate. }
  destruct (Hbody e1 eq_refl) as (_ & _ & evs1 & Ht1 & Hevs1).
  simpl in Ht1. cbn zeta in Hrun.
  destruct (destroy w) as [[]|e'].
  { destruct (instanceofError e1); rewrite Hrun; discriminate. }
  rewrite Hrun. intros _. simpl. rewrite Ht1, Ht0.
  exists (evs0 ++ [Info Purchasing] ++ evs1 ++ [Start Destroy; Finish Destroy false]).
  split; [rewrite <- !app_assoc; reflexivity|].
  rewrite !forallb_app, Hevs0'. simpl. rewrite andb_true_r.
  eapply forallb_impl; [|exact Hevs1].
  intros ev H. apply negb_true_iff in H. apply orb_false_iff in H as [_ H].
  rewrite H. reflexivity.
Qed.

(** C10: a thrown value that is not an [Error] is reported nowhere.
    When it escapes to the top-level [catch], the run has set no failure
    signal and logged no failure line, and exits with status 0; when the
    [try] block of [runPurchase] throws it and the session is released,
    [runPurchase] returns normally with no failure signal and no
    failure line. *)
Theorem non_error_failure_is_silent (w : World) (st : state) (v : string) :
  ((runBody w st).1 = Throw (NonError v) ->
   exited (run w st) = Some 0 /\
   exists evs, trace (run w st) = trace st ++ evs ++ [Exit 0] /\
               List.filter isFailureReport evs = []) /\
  ((purchaseBody w (record [Info Purchasing] st)).1 = Throw (NonError v) ->
   isOk (destroy w) = true ->
   (runPurchase w st).1 = Ok tt /\
   exitCode (runPurchase w st).2 = exitCode st /\
   exists evs, trace (runPurchase w st).2 = trace st ++ evs /\
               List.filter isFailureReport evs = []).
Proof.
  assert (Hfilter : forall evs,
            forallb (fun ev => negb (isFailureReport ev)) evs = true ->
            List.filter isFailureReport evs = []).
  { intros evs. apply filter_none. intros ev H. apply negb_true_iff, H. }
  split.
  - intros Hthrow. destruct (runBody_throws w st _ Hthrow) as (evs & Ht & Hevs).
    rewrite run_cases. destruct (runBody w st) as [[[]|e] st1]; [discriminate|].
    simpl in Hthrow. inversion Hthrow; subst e. simpl in *.
    split; [reflexivity|]. exists evs. rewrite Ht, <- app_assoc. auto.
  - intros Hthrow Hdestroy.
    destruct (purchaseBody_throws w _ _ Hthrow) as (_ & Hcode & evs & Ht & Hevs).
    pose proof (runPurchase_cases w st) as Hrun.
    destruct (purchaseBody w (record [Info Purchasing] st)) as [[[]|e] st1];
      [discriminate|].
    simpl in Hthrow. inversion Hthrow; subst e. cbn zeta in Hrun.
    destruct (destroy w) as [[]|e']; [|discriminate]. cbn iota in Hrun.
    simpl in Hrun. rewrite Hrun. simpl in *. split; [reflexivity|].
    split; [exact Hcode|].
    exists ([Info Purchasing] ++ evs ++ [Start Destroy; Finish Destroy true]).
    rewrite Ht. split; [rewrite <- !app_assoc; reflexivity|].
    simpl. rewrite List.filter_app. simpl. rewrite app_nil_r. apply Hfilter.
    eapply forallb_impl; [|exact Hevs].
    intros ev H. apply negb_true_iff in H. apply orb_false_iff in H as [_ H].
    rewrite H. reflexivity.
Qed.

Lemma non_error_failure_is_silent_witness :
  let w1 := worldWith (Throw (NonError "offline")) "" toyParser toyChecker
              (fun _ _ => Ok tt) toyBuyer (fun _ => 0%nat) in
  let w2 := worldWith (Ok tt) "" toyParser toyChecker (fun _ _ => Ok tt)
              (fun _ => Throw (NonError "sold out")) (fun _ => 0%nat) in
  ((runBody w1 (storeOf [])).1 = Throw (NonError "offline") /\
   exited (run w1 (storeOf [])) = Some 0) /\
  ((purchaseBody w2 (record [Info Purchasing] (storeOf []))).1 = Throw (NonError "sold out") /\
   isOk (destroy w2) = true /\
   (runPurchase w2 (storeOf [])).1 = Ok tt).
Proof.
  split.
  - split; [reflexivity|].
    apply (proj1 (non_error_failure_is_silent
                    (worldWith (Throw (NonError "offline")) "" toyParser toyChecker
                       (fun _ _ => Ok tt) toyBuyer (fun _ => 0%nat))
                    (storeOf []) "offline")).
    reflexivity.
  - split; [reflexivity|]. split; [reflexivity|].
    apply (proj2 (non_error_failure_is_silent
                    (worldWith (Ok tt) "" toyParser toyChecker (fun _ _ => Ok tt)
                       (fun _ => Throw (NonError "sold out")) (fun _ => 0%nat))
                    (storeOf []) "sold out")); reflexivity.
Defined.

(** The same failures, thrown as an [Error], are reported. *)
Example error_failure_is_reported :
  let w1 := worldWith (Throw (JsError "Error" "offline")) "" toyParser toyChecker
              (fun _ _ => Ok tt) toyBuyer (fun _ => 0%nat) in
  let w2 := worldWith (Ok tt) "" toyParser toyChecker (fun _ _ => Ok tt)
              (fun _ => Throw (JsError "Error" "sold out")) (fun _ => 0%nat) in
  List.filter isFailureReport (trace (run w1 (storeOf []))) =
    [Info (RunFailed "Error: offline"); SetFailed "offline"] /\
  List.filter isFailureReport (trace (run w2 (storeOf []))) =
    [Info (PurchaseFailed "Error: sold out"); SetFailed "sold out"].
Proof. vm_compute. auto. Qed.

(** ** Tickets the checker passes over *)

Lemma outcome_at (w : World) issues st k i :
  issues !! k = Some i ->
  exists results r,
    (allSettled w issues st).1 = Ok results /\ results !! k = Some r /\
    isRejected r = rejects (verdictOf w i).
Proof.
  intros Hk. destruct (allSettled_outcomes w issues st) as (results & Heq & Hall).
  destruct (Forall2_lookup_l _ _ _ _ _ Hall Hk) as (r & Hr & Hrej).
  exists results, r. auto.
Qed.

(** C9: a ticket whose body is absent or empty is passed over.  Its
    pipeline is fulfilled at once and leaves the state as it is: no
    decoding, no check, no store update.  In any fan-out its outcome is
    a fulfilment, and after the checker the ticket is still Awaiting. *)
Theorem empty_body_is_skipped (w : World) (i : issue) :
  body i = None \/ body i = Some "" ->
  (forall st, startPipeline w i st = (Settled (Ok tt) [], st)) /\
  (forall issues st k,
      issues !! k = Some i ->
      exists results, (allSettled w issues st).1 = Ok results /\
                      results !! k = Some (Ok tt)) /\
  (forall st,
      NoDup (map number (store st)) -> isOk (listing w) = true ->
      i ∈ awaiting (store st) ->
      statusOf (number i) (store (runWinningCheck w st).2) = Some Awaiting).
Proof.
  intros Hbody.
  assert (Htruthy : truthyBody i = None).
  { unfold truthyBody. destruct Hbody as [->| ->]; reflexivity. }
  assert (Hverdict : verdictOf w i = Skipped).
  { unfold verdictOf. rewrite Htruthy. reflexivity. }
  split; [|split].
  - intros st. unfold startPipeline. destruct Hbody as [->| ->]; reflexivity.
  - intros issues st k Hk.
    destruct (outcome_at w issues st k i Hk) as (results & r & Heq & Hr & Hrej).
    exists results. split; [exact Heq|]. rewrite Hverdict in Hrej.
    destruct r as [[]|e]; [exact Hr|discriminate].
  - intros st Hnd Hl Hi.
    rewrite (runWinningCheck_store w st Hnd Hl i).
    + apply elem_of_awaiting in Hi as [_ Hs]. unfold isAwaiting.
      rewrite Hs, Hverdict. reflexivity.
    + apply elem_of_awaiting in Hi as [Hi _]. exact Hi.
Qed.

Lemma NoDup_numbers_2 (a b : issue) :
  number a <> number b -> NoDup (map number [a; b]).
Proof.
  intros H. simpl. apply NoDup_cons. split.
  - intros Hin. apply list_elem_of_singleton in Hin. contradiction.
  - apply NoDup_singleton.
Qed.

Lemma empty_body_is_skipped_witness :
  (body (waiting 6 (Some "")) = None \/ body (waiting 6 (Some "")) = Some "") /\
  statusOf 6 (store (runWinningCheck calm
                       (storeOf [waiting 5 None; waiting 6 (Some "")])).2)
  = Some Awaiting.
Proof.
  split; [right; reflexivity|].
  apply (proj2 (proj2 (empty_body_is_skipped calm (waiting 6 (Some ""))
                         (or_intror eq_refl)))
           (storeOf [waiting 5 None; waiting 6 (Some "")])).
  - apply NoDup_numbers_2. discriminate.
  - reflexivity.
  - apply elem_of_awaiting. split; [|reflexivity].
    apply list_elem_of_In. simpl. auto.
Defined.

(** A store of such tickets only: the checker logs and does nothing else. *)
Example empty_bodies_trace :
  runWinningCheck calm (storeOf [waiting 5 None; waiting 6 (Some "")]) =
  (Ok tt,
   {| store := [waiting 5 None; waiting 6 (Some "")];
      trace := [Info CheckingResults; Start GetWaitingIssues;
                Finish GetWaitingIssues true; Info (CheckingCount 2)];
      exitCode := None; exited := None; inflight := [] |}).
Proof. reflexivity. Qed.

(** ** Tickets that decode to no combination *)

(** The ticket of the store [[waiting 4 (Some "Z")]] decodes to no
    combination; the checker calls [markIssueAsChecked] for it with no
    label, and the ticket is Checked, not Awaiting. *)
Lemma empty_decode_updates_store :
  bodyParser calm "Z" = Ok ([], 1084) /\
  runWinningCheck calm (storeOf [waiting 4 (Some "Z")]) =
  (Ok tt,
   {| store := [{| number := 4; title := "2023-06-06"; body := Some "Z";
                   status := Checked [] |}];
      trace := [Info CheckingResults; Start GetWaitingIssues;
                Finish GetWaitingIssues true; Info (CheckingCount 1);
                BodyParser "Z"; Start (MarkIssueAsChecked 4 []);
                Finish (MarkIssueAsChecked 4 []) true];
      exitCode := None; exited := None; inflight := [] |}) /\
  statusOf 4 (store (runWinningCheck calm (storeOf [waiting 4 (Some "Z")])).2)
  <> Some Awaiting.
Proof. split; [reflexivity|]. split; [reflexivity|]. discriminate. Qed.

(** C2, as the code has it: for a ticket whose body decodes to no
    combination, no check is called and [markIssueAsChecked] is called
    with the empty label set; the pipeline is fulfilled and the ticket
    Checked, with no label, when that call succeeds, and it is rejected
    and the ticket still Awaiting when that call fails. *)
Theorem empty_decode_marks_checked (w : World) (i : issue) (text : string) (round : Z) :
  truthyBody i = Some text ->
  bodyParser w text = Ok ([], round) ->
  (forall st,
      (startPipeline w i st).1 = Checking (number i) [] /\
      trace (startPipeline w i st).2 = trace st ++ [BodyParser text] /\
      resume w (Checking (number i) []) (startPipeline w i st).2 =
      (Marking (number i) [],
       record [Start (MarkIssueAsChecked (number i) [])] (startPipeline w i st).2)) /\
  (forall issues st k,
      issues !! k = Some i ->
      exists results r, (allSettled w issues st).1 = Ok results /\
                        results !! k = Some r /\
                        isOk r = isOk (marking w (number i) [])) /\
  (forall st,
      NoDup (map number (store st)) -> isOk (listing w) = true ->
      i ∈ awaiting (store st) ->
      statusOf (number i) (store (runWinningCheck w st).2) =
      Some (if isOk (marking w (number i) []) then Checked [] else Awaiting)).
Proof.
  intros Htruthy Hparse.
  assert (Hverdict : verdictOf w i =
                     if isOk (marking w (number i) []) then Marked [] else Rejected).
  { unfold verdictOf. rewrite Htruthy, Hparse. reflexivity. }
  split; [|split].
  - intros st. unfold startPipeline. unfold truthyBody in Htruthy.
    destruct (body i) as [text'|]; [|discriminate].
    destruct (String.eqb text' ""); [discriminate|]. inversion Htruthy; subst text'.
    rewrite Hparse. simpl. rewrite app_nil_r. auto.
  - intros issues st k Hk.
    destruct (outcome_at w issues st k i Hk) as (results & r & Heq & Hr & Hrej).
    exists results, r. split; [exact Heq|]. split; [exact Hr|].
    rewrite Hverdict in Hrej. unfold isRejected in Hrej.
    destruct (isOk (marking w (number i) [])), (isOk r); simpl in Hrej;
      congruence.
  - intros st Hnd Hl Hi.
    rewrite (runWinningCheck_store w st Hnd Hl i).
    + apply elem_of_awaiting in Hi as [_ Hs]. unfold isAwaiting.
      rewrite Hs, Hverdict. destruct (isOk (marking w (number i) [])); reflexivity.
    + apply elem_of_awaiting in Hi as [Hi _]. exact Hi.
Qed.

Lemma empty_decode_marks_checked_witness :
  truthyBody (waiting 4 (Some "Z")) = Some "Z" /\
  bodyParser calm "Z" = Ok ([], 1084) /\
  (startPipeline calm (waiting 4 (Some "Z")) (storeOf [])).1 = Checking 4 [].
Proof.
  split; [reflexivity|]. split; [reflexivity|].
  apply (proj1 (empty_decode_marks_checked calm (waiting 4 (Some "Z")) "Z" 1084
                  eq_refl eq_refl) (storeOf [])).
Defined.

(** ** Failure isolation *)

(** C4: the checker returns normally whatever the pipelines come to;
    every awaiting ticket ends in the status of its own verdict, which
    depends on that ticket alone (its body, its checks and its store
    update), not on the other tickets nor on the schedule; and the number
    of rejected pipelines is what the checker logs. *)
Theorem failure_isolation (w : World) (st : state) :
  NoDup (map number (store st)) ->
  isOk (listing w) = true ->
  (runWinningCheck w st).1 = Ok tt /\
  (forall i, i ∈ awaiting (store st) ->
     statusOf (number i) (store (runWinningCheck w st).2)
     = Some (statusAfter (verdictOf w i))) /\
  (forall st1,
     exists results,
       (allSettled w (awaiting (store st)) st1).1 = Ok results /\
       Forall2 (fun i r => isRejected r = rejects (verdictOf w i))
         (awaiting (store st)) results) /\
  (exists evs,
     forallb fanOutEvent evs = true /\
     trace (runWinningCheck w st).2 =
     trace st ++ checkerTrace w (awaiting (store st)) evs).
Proof.
  intros Hnd Hl.
  destruct (runWinningCheck_trace w st Hl) as (evs & st' & Heq & Hevs & Ht & _).
  split; [rewrite Heq; reflexivity|]. split; [|split].
  - intros i Hi. rewrite (runWinningCheck_store w st Hnd Hl i).
    + apply elem_of_awaiting in Hi as [_ Hs]. unfold isAwaiting. rewrite Hs. reflexivity.
    + apply elem_of_awaiting in Hi as [Hi _]. exact Hi.
  - intros st1. apply allSettled_outcomes.
  - exists evs. rewrite Heq. auto.
Qed.

(** Ticket 1 decodes and is checked; ticket 2 does not decode. *)
Lemma failure_isolation_witness :
  let st := storeOf [waiting 1 (Some "A"); waiting 2 (Some "B")] in
  (runWinningCheck calm st).1 = Ok tt /\
  statusOf 1 (store (runWinningCheck calm st).2) = Some (Checked ["5th"; "3rd"]) /\
  statusOf 2 (store (runWinningCheck calm st).2) = Some Awaiting /\
  failures calm (awaiting (store st)) = 1%nat.
Proof.
  pose proof (failure_isolation calm
                (storeOf [waiting 1 (Some "A"); waiting 2 (Some "B")])
                (NoDup_numbers_2 (waiting 1 (Some "A")) (waiting 2 (Some "B"))
                   ltac:(discriminate)) eq_refl)
    as (Hok & Hstatus & _ & _).
  split; [exact Hok|]. split; [|split; [|reflexivity]].
  - apply (Hstatus (waiting 1 (Some "A"))).
    apply elem_of_awaiting. split; [|reflexivity]. apply list_elem_of_In. simpl. auto.
  - apply (Hstatus (waiting 2 (Some "B"))).
    apply elem_of_awaiting. split; [|reflexivity]. apply list_elem_of_In. simpl. auto.
Defined.

(** The same two tickets, run: one failure is logged. *)
Example failure_isolation_trace :
  runWinningCheck calm (storeOf [waiting 1 (Some "A"); waiting 2 (Some "B")]) =
  (Ok tt,
   {| store := [{| number := 1; title := "2023-06-06"; body := Some "A";
                   status := Checked ["5th"; "3rd"] |};
                waiting 2 (Some "B")];
      trace := [Info CheckingResults; Start GetWaitingIssues;
                Finish GetWaitingIssues true; Info (CheckingCount 2);
                BodyParser "A"; Start (Check [5; 11] 1084);
                Start (Check [5; 12] 1084); Start (Check [3; 13] 1084);
                BodyParser "B";
                Finish (Check [5; 11] 1084) true; Finish (Check [5; 12] 1084) true;
                Finish (Check [3; 13] 1084) true;
                Start (MarkIssueAsChecked 1 ["5th"; "3rd"]);
                Finish (MarkIssueAsChecked 1 ["5th"; "3rd"]) true;
                Info (CheckErrors 1)];
      exitCode := None; exited := None; inflight := [] |}).
Proof. vm_compute. reflexivity. Qed.

(** ** The label set *)

Lemma elem_of_setOf (l : list label) (x : label) : x ∈ setOf l <-> x ∈ l.
Proof.
  induction l as [|y l IH]; simpl; [reflexivity|].
  rewrite !elem_of_cons, <- IH, !list_elem_of_In, filter_In, negb_true_iff.
  split.
  - intros [->|[H _]]; auto.
  - intros [->|H]; [auto|]. destruct (String.eqb y x) eqn:Heq.
    + apply String.eqb_eq in Heq. auto.
    + auto.
Qed.

Lemma NoDup_setOf (l : list label) : NoDup (setOf l).
Proof.
  induction l as [|y l IH]; simpl; [constructor|].
  apply NoDup_cons. split.
  - rewrite list_elem_of_In, filter_In, negb_true_iff, String.eqb_refl.
    intros [_ H]. discriminate.
  - apply NoDup_ListNoDup, List.NoDup_filter, NoDup_ListNoDup, IH.
Qed.

(** C5: the labels attached to a checked ticket are the rank labels of
    its combinations without repetition: each label of a rank, once.
    Ranks [5; 5; 3] give two labels, that of rank 5 and that of rank 3,
    and a ticket whose checks come to these ranks is Checked with them. *)
Theorem labels_are_deduplicated (w : World) :
  (forall n slots ranks st,
      ranksOf slots = Some ranks ->
      exists labels,
        (resume w (Checking n slots) st).1 = Marking n labels /\
        NoDup labels /\
        (forall l, l ∈ labels <-> exists rank, rank ∈ ranks /\ l = rankToLabel w rank)) /\
  (rankToLabel w 5 <> rankToLabel w 3 ->
   labelsOf w [5; 5; 3] = [rankToLabel w 5; rankToLabel w 3] /\
   length (labelsOf w [5; 5; 3]) = 2%nat /\
   forall st i text numbers round,
     NoDup (map number (store st)) -> isOk (listing w) = true ->
     i ∈ awaiting (store st) ->
     truthyBody i = Some text ->
     bodyParser w text = Ok (numbers, round) ->
     ranksFor w numbers round = Some [5; 5; 3] ->
     isOk (marking w (number i) [rankToLabel w 5; rankToLabel w 3]) = true ->
     statusOf (number i) (store (runWinningCheck w st).2)
     = Some (Checked [rankToLabel w 5; rankToLabel w 3])).
Proof.
  split.
  - intros n slots ranks st Hranks. simpl. rewrite Hranks.
    eexists. split; [reflexivity|]. split; [apply NoDup_setOf|].
    intros l. rewrite elem_of_setOf, list_elem_of_fmap. split.
    + intros (rank & -> & Hin). eauto.
    + intros (rank & Hin & ->). eauto.
  - intros Hne.
    assert (Hlabels : labelsOf w [5; 5; 3] = [rankToLabel w 5; rankToLabel w 3]).
    { assert (Heq : String.eqb (rankToLabel w 5) (rankToLabel w 3) = false)
        by (apply String.eqb_neq; exact Hne).
      unfold labelsOf. simpl.
      repeat (rewrite ?String.eqb_refl, ?Heq; simpl). reflexivity. }
    split; [exact Hlabels|]. split; [rewrite Hlabels; reflexivity|].
    intros st i text numbers round Hnd Hl Hi Htruthy Hparse Hranks Hmark.
    rewrite (runWinningCheck_store w st Hnd Hl i).
    + apply elem_of_awaiting in Hi as [_ Hs]. unfold isAwaiting. rewrite Hs.
      unfold verdictOf. rewrite Htruthy, Hparse, Hranks, Hlabels, Hmark. reflexivity.
    + apply elem_of_awaiting in Hi as [Hi _]. exact Hi.
Qed.

Lemma labels_are_deduplicated_witness :
  rankToLabel calm 5 <> rankToLabel calm 3 /\
  ranksFor calm [[5; 11]; [5; 12]; [3; 13]] 1084 = Some [5; 5; 3] /\
  length (labelsOf calm [5; 5; 3]) = 2%nat /\
  statusOf 1 (store (runWinningCheck calm (storeOf [waiting 1 (Some "A")])).2)
  = Some (Checked ["5th"; "3rd"]).
Proof.
  assert (Hne : rankToLabel calm 5 <> rankToLabel calm 3) by discriminate.
  split; [exact Hne|]. split; [reflexivity|].
  pose proof (proj2 (labels_are_deduplicated calm) Hne) as (_ & Hlen & Hstatus).
  split; [exact Hlen|].
  apply (Hstatus (storeOf [waiting 1 (Some "A")]) (waiting 1 (Some "A")) "A"
           [[5; 11]; [5; 12]; [3; 13]] 1084).
  - simpl. apply NoDup_singleton.
  - reflexivity.
  - apply elem_of_awaiting. split; [|reflexivity]. apply list_elem_of_In. simpl. auto.
  - reflexivity.
  - reflexivity.
  - reflexivity.
  - reflexivity.
Defined.

(** ** The order of the two phases *)





(** * Further properties *)

(** ** The purchase amount, by the value of the input *)

(** X16: whatever the purchase-amount input is, the amount asked of
    [service.purchase] is a number, and it lies between 1 and 5. *)
Theorem amount_is_between_one_and_five (w : World) :
  exists q, purchaseAmount w = Js.Num q /\ (1 <= q)%Q /\ (q <= 5)%Q.
Proof.
  unfold purchaseAmount, Js.logicalOr.
  destruct (Js.Number (getInput w lottoPurchaseAmount)) as [| | |q]; simpl;
    try (eexists; split; [reflexivity|split; apply Qle_bool_iff; reflexivity]).
  destruct (Qnum q =? 0); simpl;
    [eexists; split; [reflexivity|split; apply Qle_bool_iff; reflexivity]|].
  unfold Js.ofZ. destruct (Qle_bool q (inject_Z 5)) eqn:H5; simpl.
  - destruct (Qle_bool (inject_Z 1) q) eqn:H1; simpl.
    + exists q. split; [reflexivity|]. split; apply Qle_bool_iff; assumption.
    + exists (inject_Z 1). split; [reflexivity|]. split; apply Qle_bool_iff; reflexivity.
  - exists (inject_Z 5). split; [reflexivity|]. split; apply Qle_bool_iff; reflexivity.
Qed.



(** ** The bootstrap *)

Section Bootstrap.

Variable w : World.

Lemma runActionsEnvironments_store st :
  store (runActionsEnvironments w st).2 = store st.
Proof.
  unfold runActionsEnvironments, bind, info, log, await, lift.
  destruct (installBrowser w) as [[]|e]; simpl; [|reflexivity].
  destruct (newLottoService w) as [[]|e]; simpl; [|reflexivity].
  destruct (negb (String.eqb (getInput w lottoId) "") &&
            negb (String.eqb (getInput w lottoPassword) "")); reflexivity.
Qed.

Lemma bootstrap_store st : store (bootstrap w st).2 = store st.
Proof.
  unfold bootstrap, bind. rewrite runInitRepo_cases.
  destruct (initLabels w) as [[]|e]; [|reflexivity].
  rewrite runActionsEnvironments_store. reflexivity.
Qed.

Lemma bootstrap_advances st : advances setupEvent st (bootstrap w st).2.
Proof.
  unfold bootstrap, bind.
  pose proof (runInitRepo_advances w st) as H1.
  destruct (runInitRepo w st) as [[[]|e] st1]; simpl in *; [|exact H1].
  eapply advances_trans; [exact H1|].
  apply grows_advances, runActionsEnvironments_grows.
Qed.

Lemma beforePurchase_bootstrap st :
  beforePurchase w st =
  match bootstrap w st with
  | (Ok _, st1) => runWinningCheck w st1
  | (Throw e, st1) => (Throw e, st1)
  end.
Proof.
  unfold beforePurchase, bootstrap, bind.
  destruct (runInitRepo w st) as [[[]|e] st1]; [|reflexivity].
  destruct (runActionsEnvironments w st1) as [[[]|e] st2]; reflexivity.
Qed.

(** What the end of [run] does with a value thrown by its [try] block. *)
Lemma run_caught st e st1 :
  runBody w st = (Throw e, st1) ->
  run w st =
  exit 0 (if instanceofError e
          then record [Info (RunFailed (toString e)); SetFailed (message e)]
                 {| store := store st1; trace := trace st1; exitCode := Some 1;
                    exited := exited st1; inflight := inflight st1 |}
          else st1).
Proof.
  intros H. rewrite run_cases, H. destruct (instanceofError e); [|reflexivity].
  unfold exit, setFailed, record. simpl. rewrite <- !app_assoc. reflexivity.
Qed.

End Bootstrap.

(** X1: a failure of the bootstrap (the labels, the browser, the
    construction of the service or the sign-in) ends the run: the tickets
    are not listed, nothing is checked, nothing is purchased, the store
    is as it was, and an [Error] is reported with its message. *)
Theorem bootstrap_failure_is_fatal (w : World) (st : state) (e : thrown) :
  (bootstrap w st).1 = Throw e ->
  store (run w st) = store st /\
  (exists evs,
     trace (run w st) = trace st ++ evs /\
     List.filter checkerEvent evs = [] /\
     List.filter isPurchaseCall evs = [] /\
     List.filter isFailureReport evs =
     if instanceofError e
     then [Info (RunFailed (toString e)); SetFailed (message e)] else []) /\
  exitCode (run w st) = (if instanceofError e then Some 1 else exitCode st).
Proof.
  intros Hthrow.
  pose proof (bootstrap_store w st) as Hstore.
  destruct (bootstrap_advances w st) as [(evs & Ht & Hevs) _].
  assert (Hcode : exitCode (bootstrap w st).2 = exitCode st).
  { unfold bootstrap, bind. rewrite runInitRepo_cases.
    destruct (initLabels w) as [[]|e0]; [|reflexivity].
    destruct (runActionsEnvironments_grows w
                (record [Start InitLabels; Finish InitLabels (isOk (Ok ()))] st))
      as (_ & Hc & _). exact Hc. }
  assert (Hbody : runBody w st = (Throw e, (bootstrap w st).2)).
  { rewrite runBody_split, beforePurchase_bootstrap.
    destruct (bootstrap w st) as [[[]|e0] st1]; [discriminate|].
    simpl in Hthrow |- *. inversion Hthrow. reflexivity. }
  rewrite (run_caught w st e _ Hbody).
  assert (H1 : List.filter checkerEvent evs = []).
  { eapply filter_none; [|exact Hevs].
    intros [[]| | | | |[]|[]] H; try reflexivity; discriminate. }
  assert (H2 : List.filter isPurchaseCall evs = []).
  { eapply filter_none; [|exact Hevs].
    intros [[]| | | | |[]|[]] H; try reflexivity; discriminate. }
  assert (H3 : List.filter isFailureReport evs = []).
  { eapply filter_none; [|exact Hevs].
    intros [[]| | | | |[]|[]] H; try reflexivity; discriminate. }
  destruct (instanceofError e); simpl.
  - split; [exact Hstore|]. split; [|reflexivity].
    exists (evs ++ [Info (RunFailed (toString e)); SetFailed (message e); Exit 0]).
    rewrite Ht, <- !app_assoc. simpl. split; [reflexivity|].
    rewrite !List.filter_app, H1, H2, H3. auto.
  - split; [exact Hstore|]. split; [|exact Hcode].
    exists (evs ++ [Exit 0]).
    rewrite Ht, <- !app_assoc. split; [reflexivity|].
    rewrite !List.filter_app, H1, H2, H3. auto.
Qed.

Lemma bootstrap_failure_is_fatal_witness :
  let w := worldWith (Throw (JsError "HttpError" "bad credentials")) "" toyParser
             toyChecker (fun _ _ => Ok tt) toyBuyer (fun _ => 0%nat) in
  (bootstrap w (storeOf [waiting 1 (Some "A")])).1
  = Throw (JsError "HttpError" "bad credentials") /\
  store (run w (storeOf [waiting 1 (Some "A")])) = [waiting 1 (Some "A")].
Proof.
  split; [reflexivity|].
  apply (bootstrap_failure_is_fatal
           (worldWith (Throw (JsError "HttpError" "bad credentials")) "" toyParser
              toyChecker (fun _ _ => Ok tt) toyBuyer (fun _ => 0%nat))
           (storeOf [waiting 1 (Some "A")])
           (JsError "HttpError" "bad credentials")).
  reflexivity.
Defined.

Lemma early_events_report_nothing evs :
  forallb (fun e => setupEvent e || checkerEvent e) evs = true ->
  List.filter isFailureReport evs = [] /\
  List.filter isPurchaseCall evs = [] /\
  List.filter isRelease evs = [].
Proof.
  intros H. repeat split; (eapply filter_none; [|exact H]);
    intros [[]| | | | |[]|[]] He; try reflexivity; discriminate.
Qed.

(** X2: when the awaiting tickets cannot be listed, the run is over: no
    body is decoded, nothing is checked or purchased, the store is as it
    was, and an [Error] is reported with its message. *)
Theorem listing_failure_is_fatal (w : World) (st : state) (e : thrown) :
  (bootstrap w st).1 = Ok tt ->
  listing w = Throw e ->
  store (run w st) = store st /\
  exists evs,
    trace (run w st) = trace st ++ evs /\
    List.filter fanOutEvent evs = [] /\
    List.filter isPurchaseCall evs = [] /\
    List.filter isFailureReport evs =
    if instanceofError e
    then [Info (RunFailed (toString e)); SetFailed (message e)] else [].
Proof.
  intros Hboot Hlist.
  pose proof (bootstrap_store w st) as Hstore.
  destruct (bootstrap_advances w st) as [(evs & Ht & Hevs) _].
  assert (Hbody : runBody w st =
                  (Throw e, record [Start GetWaitingIssues; Finish GetWaitingIssues false]
                              (record [Info CheckingResults] (bootstrap w st).2))).
  { rewrite runBody_split, beforePurchase_bootstrap.
    destruct (bootstrap w st) as [[[]|e0] st1]; [|discriminate].
    rewrite (runWinningCheck_throws w st1 e Hlist). reflexivity. }
  rewrite (run_caught w st e _ Hbody).
  assert (H1 : List.filter fanOutEvent evs = []).
  { eapply filter_none; [|exact Hevs].
    intros [[]| | | | |[]|[]] H; try reflexivity; discriminate. }
  assert (H2 : List.filter isPurchaseCall evs = []).
  { eapply filter_none; [|exact Hevs].
    intros [[]| | | | |[]|[]] H; try reflexivity; discriminate. }
  assert (H3 : List.filter isFailureReport evs = []).
  { eapply filter_none; [|exact Hevs].
    intros [[]| | | | |[]|[]] H; try reflexivity; discriminate. }
  destruct (instanceofError e); simpl; (split; [exact Hstore|]).
  - exists (evs ++ [Info CheckingResults; Start GetWaitingIssues;
                    Finish GetWaitingIssues false;
                    Info (RunFailed (toString e)); SetFailed (message e); Exit 0]).
    rewrite Ht, <- !app_assoc. simpl. split; [reflexivity|].
    rewrite !List.filter_app, H1, H2, H3. auto.
  - exists (evs ++ [Info CheckingResults; Start GetWaitingIssues;
                    Finish GetWaitingIssues false; Exit 0]).
    rewrite Ht, <- !app_assoc. simpl. split; [reflexivity|].
    rewrite !List.filter_app, H1, H2, H3. auto.
Qed.

Lemma listing_failure_is_fatal_witness :
  let w := {| getInput := fun _ => ""; initLabels := Ok tt;
              listing := Throw (JsError "HttpError" "rate limited");
              rankToLabel := fun _ => "lose"; marking := fun _ _ => Ok tt;
              creating := fun _ _ => Ok tt; installBrowser := Ok tt;
              newLottoService := Ok tt; signIn := fun _ _ => Ok tt;
              check := toyChecker; purchase := toyBuyer;
              getCheckWinningLink := fun _ _ => Ok "link"; destroy := Ok tt;
              getCurrentLottoRound := Ok 1084; bodyParser := toyParser;
              bodyBuilder := fun _ _ _ _ => Ok "body"; today := "2023-06-13";
              schedule := fun _ => 0%nat |} in
  (bootstrap w (storeOf [waiting 1 (Some "A")])).1 = Ok tt /\
  listing w = Throw (JsError "HttpError" "rate limited") /\
  store (run w (storeOf [waiting 1 (Some "A")])) = [waiting 1 (Some "A")].
Proof.
  split; [reflexivity|]. split; [reflexivity|].
  apply (listing_failure_is_fatal
           {| getInput := fun _ => ""; initLabels := Ok tt;
              listing := Throw (JsError "HttpError" "rate limited");
              rankToLabel := fun _ => "lose"; marking := fun _ _ => Ok tt;
              creating := fun _ _ => Ok tt; installBrowser := Ok tt;
              newLottoService := Ok tt; signIn := fun _ _ => Ok tt;
              check := toyChecker; purchase := toyBuyer;
              getCheckWinningLink := fun _ _ => Ok "link"; destroy := Ok tt;
              getCurrentLottoRound := Ok 1084; bodyParser := toyParser;
              bodyBuilder := fun _ _ _ _ => Ok "body"; today := "2023-06-13";
              schedule := fun _ => 0%nat |}
           (storeOf [waiting 1 (Some "A")])
           (JsError "HttpError" "rate limited")); reflexivity.
Defined.

(** ** The sign-in *)

(** What follows the bootstrap in a run has no event of the bootstrap. *)
Lemma run_after_bootstrap (w : World) (st : state) :
  exists rest,
    trace (run w st) = trace (bootstrap w st).2 ++ rest /\
    forallb (fun e => checkerEvent e || purchaseEvent e || finalEvent e) rest = true.
Proof.
  rewrite run_cases, runBody_split, beforePurchase_bootstrap.
  destruct (bootstrap w st) as [[[]|e] st1]; simpl.
  2:{ destruct (instanceofError e); simpl; eexists; rewrite <- ?app_assoc; simpl;
      (split; [reflexivity|]); reflexivity. }
  destruct (runWinningCheck_advances w st1) as [(evc & Hc & Hevc) _].
  assert (Hevc' : forallb (fun e => checkerEvent e || purchaseEvent e || finalEvent e) evc
                  = true).
  { eapply forallb_impl; [|exact Hevc]. intros ? ->. reflexivity. }
  destruct (runWinningCheck w st1) as [[[]|e] st2]; simpl in Hc.
  2:{ destruct (instanceofError e); simpl.
      - exists (evc ++ [Info (RunFailed (toString e)); SetFailed (message e); Exit 0]).
        rewrite Hc, <- !app_assoc. simpl. split; [reflexivity|].
        rewrite forallb_app, Hevc'. reflexivity.
      - exists (evc ++ [Exit 0]). rewrite Hc, <- !app_assoc. split; [reflexivity|].
        rewrite forallb_app, Hevc'. reflexivity. }
  destruct (runPurchase_advances w st2) as [(evp & Hp & Hevp) _].
  assert (Hevp' : forallb (fun e => checkerEvent e || purchaseEvent e || finalEvent e) evp
                  = true).
  { eapply forallb_impl; [|exact Hevp]. intros ? ->. apply orb_true_iff. left.
    apply orb_true_r. }
  destruct (runPurchase w st2) as [[[]|e] st3]; simpl in Hp.
  - exists (evc ++ evp ++ [Exit 0]). simpl. rewrite Hp, Hc, <- !app_assoc.
    split; [reflexivity|]. rewrite !forallb_app, Hevc', Hevp'. reflexivity.
  - destruct (instanceofError e); simpl.
    + exists (evc ++ evp ++ [Info (RunFailed (toString e)); SetFailed (message e); Exit 0]).
      rewrite Hp, Hc, <- !app_assoc. simpl. split; [reflexivity|].
      rewrite !forallb_app, Hevc', Hevp'. reflexivity.
    + exists (evc ++ evp ++ [Exit 0]). rewrite Hp, Hc, <- !app_assoc.
      split; [reflexivity|]. rewrite !forallb_app, Hevc', Hevp'. reflexivity.
Qed.

(** X3: in a whole run the service signs in at most once, with the two
    credential inputs, and only when both are non-empty and the labels,
    the browser and the service are there; with a credential missing the
    run goes on without signing in. *)
Theorem signIn_needs_both_credentials (w : World) (st : state) :
  exists evs,
    trace (run w st) = trace st ++ evs /\
    List.filter isSignIn evs =
    if isOk (initLabels w) && isOk (installBrowser w) && isOk (newLottoService w) &&
       negb (String.eqb (getInput w lottoId) "") &&
       negb (String.eqb (getInput w lottoPassword) "")
    then [Start (SignIn (getInput w lottoId) (getInput w lottoPassword))]
    else [].
Proof.
  destruct (run_after_bootstrap w st) as (rest & Ht & Hrest).
  assert (Hnone : List.filter isSignIn rest = []).
  { eapply filter_none; [|exact Hrest].
    intros [[]| | | | |[]|[]] H; try reflexivity; discriminate. }
  assert (Hboot : exists evs,
            trace (bootstrap w st).2 = trace st ++ evs /\
            List.filter isSignIn evs =
            if isOk (initLabels w) && isOk (installBrowser w) &&
               isOk (newLottoService w) &&
               negb (String.eqb (getInput w lottoId) "") &&
               negb (String.eqb (getInput w lottoPassword) "")
            then [Start (SignIn (getInput w lottoId) (getInput w lottoPassword))]
            else []).
  { unfold bootstrap, bind. rewrite runInitRepo_cases.
    destruct (initLabels w) as [[]|e]; simpl; [|eexists; split; reflexivity].
    unfold runActionsEnvironments, bind, info, log, await, lift.
    destruct (installBrowser w) as [[]|e]; simpl;
      [|eexists; rewrite <- !app_assoc; split; reflexivity].
    destruct (newLottoService w) as [[]|e]; simpl;
      [|eexists; rewrite <- !app_assoc; split; reflexivity].
    destruct (negb (String.eqb (getInput w lottoId) "") &&
              negb (String.eqb (getInput w lottoPassword) "")); simpl;
      eexists; rewrite <- !app_assoc; split; reflexivity. }
  destruct Hboot as (evs & Hb & Hf).
  exists (evs ++ rest). rewrite Ht, Hb, <- app_assoc. split; [reflexivity|].
  rewrite List.filter_app, Hnone, app_nil_r. exact Hf.
Qed.

(** ** The purchase, step by step *)

(** The successful path of [runPurchase]. *)
Lemma runPurchase_success
  (w : World) (st : state) (numbers : list combination) (current : Z)
  (link issueBody : string) :
  purchase w (purchaseAmount w) = Ok numbers ->
  getCurrentLottoRound w = Ok current ->
  getCheckWinningLink w (current + 1) numbers = Ok link ->
  bodyBuilder w (today w) (current + 1) numbers link = Ok issueBody ->
  isOk (creating w (today w) issueBody) = true ->
  (runPurchase w st).1 = Ok tt /\
  store (runPurchase w st).2 =
  store st ++ [{| number := nextNumber (store st); title := today w;
                  body := Some issueBody; status := Awaiting |}] /\
  exitCode (runPurchase w st).2 = exitCode st /\
  exists evs,
    trace (runPurchase w st).2 = trace st ++ evs /\
    List.filter isPurchaseCall evs =
    [Start (Purchase (purchaseAmount w));
     Start (CreateWaitingIssue (today w) issueBody)] /\
    List.filter isFailureReport evs = [] /\
    List.filter isRelease evs = [].
Proof.
  intros Hp Hr Hl Hb Hc.
  pose proof (purchaseBody_cases w (record [Info Purchasing] st)) as Hbody.
  cbn zeta in Hbody. rewrite Hp, Hr, Hl, Hb in Hbody.
  destruct (creating w (today w) issueBody) as [[]|e]; [|discriminate].
  pose proof (runPurchase_cases w st) as Hrun. rewrite Hbody in Hrun.
  rewrite Hrun. simpl. split; [reflexivity|]. split; [reflexivity|].
  split; [reflexivity|].
  eexists. rewrite <- !app_assoc. simpl. split; [reflexivity|].
  split; [reflexivity|]. split; reflexivity.
Qed.

(** X4: when every step of the [try] block of [runPurchase] succeeds,
    one Awaiting ticket is added to the store, under the date of the day
    and with the body built from that date, the round after the current
    one, the numbers purchased and the link computed for that same round
    and those numbers; the tickets already there are untouched, no
    failure is reported and the session is not released. *)
Theorem successful_purchase_records_one_ticket
  (w : World) (st : state) (numbers : list combination) (current : Z)
  (link issueBody : string) :
  purchase w (purchaseAmount w) = Ok numbers ->
  getCurrentLottoRound w = Ok current ->
  getCheckWinningLink w (current + 1) numbers = Ok link ->
  bodyBuilder w (today w) (current + 1) numbers link = Ok issueBody ->
  isOk (creating w (today w) issueBody) = true ->
  (runPurchase w st).1 = Ok tt /\
  store (runPurchase w st).2 =
  store st ++ [{| number := nextNumber (store st); title := today w;
                  body := Some issueBody; status := Awaiting |}] /\
  exitCode (runPurchase w st).2 = exitCode st /\
  exists evs,
    trace (runPurchase w st).2 = trace st ++ evs /\
    List.filter isPurchaseCall evs =
    [Start (Purchase (purchaseAmount w));
     Start (CreateWaitingIssue (today w) issueBody)] /\
    List.filter isFailureReport evs = [] /\
    List.filter isRelease evs = [].
Proof. apply runPurchase_success. Qed.

Lemma successful_purchase_records_one_ticket_witness :
  store (runPurchase calm (storeOf [waiting 7 None])).2 =
  [waiting 7 None;
   {| number := 8; title := "2023-06-13"; body := Some "body"; status := Awaiting |}].
Proof.
  apply (successful_purchase_records_one_ticket calm (storeOf [waiting 7 None])
           [[1; 2; 3; 4; 5; 6]] 1084 "link" "body"
           eq_refl eq_refl eq_refl eq_refl eq_refl).
Defined.

(** A run that has come to call [runPurchase]. *)
Lemma run_purchasing (w : World) (st0 st : state) :
  beforePurchase w st0 = (Ok tt, st) ->
  (exists pre, trace st = trace st0 ++ pre /\
               List.filter isFailureReport pre = [] /\
               List.filter isPurchaseCall pre = [] /\
               List.filter isRelease pre = []) /\
  run w st0 =
  match runPurchase w st with
  | (Ok _, st2) => exit 0 st2
  | (Throw e, st2) =>
      exit 0 (if instanceofError e
              then record [Info (RunFailed (toString e)); SetFailed (message e)]
                     {| store := store st2; trace := trace st2; exitCode := Some 1;
                        exited := exited st2; inflight := inflight st2 |}
              else st2)
  end.
Proof.
  intros Hbefore.
  destruct (beforePurchase_advances w st0) as [(pre & Hpre & Hevs) _].
  rewrite Hbefore in Hpre. simpl in Hpre. split.
  - exists pre. split; [exact Hpre|]. apply early_events_report_nothing, Hevs.
  - destruct (runPurchase w st) as [[[]|e] st2] eqn:Hrun.
    + rewrite run_cases, runBody_split, Hbefore, Hrun. reflexivity.
    + apply run_caught. rewrite runBody_split, Hbefore. exact Hrun.
Qed.

(** X5: when the purchase sequence fails with an [Error] and the session
    is released, [runPurchase] reports the failure itself, with the
    message of the error, and returns normally: in the whole run the
    failure is reported once, and not again by the [catch] of [run]. *)
Theorem purchase_error_is_reported_once (w : World) (st : state) (name msg : string) :
  (purchaseBody w (record [Info Purchasing] st)).1 = Throw (JsError name msg) ->
  isOk (destroy w) = true ->
  (runPurchase w st).1 = Ok tt /\
  exitCode (runPurchase w st).2 = Some 1 /\
  forall st0,
    beforePurchase w st0 = (Ok tt, st) ->
    exitCode (run w st0) = Some 1 /\
    exists evs,
      trace (run w st0) = trace st0 ++ evs /\
      List.filter isFailureReport evs =
      [Info (PurchaseFailed (toString (JsError name msg))); SetFailed msg].
Proof.
  intros Hthrow Hdestroy.
  destruct (purchaseBody_throws w _ _ Hthrow) as (_ & _ & evs & Ht & Hevs).
  assert (Hnone : List.filter isFailureReport evs = []).
  { eapply filter_none; [|exact Hevs]. intros ev H.
    apply negb_true_iff in H. apply orb_false_iff in H as [_ H]. exact H. }
  pose proof (runPurchase_cases w st) as Hrun.
  destruct (purchaseBody w (record [Info Purchasing] st)) as [[[]|e] st1];
    [discriminate|].
  simpl in Hthrow. inversion Hthrow; subst e. cbn zeta in Hrun.
  destruct (destroy w) as [[]|e']; [|discriminate].
  cbn [instanceofError isOk message] in Hrun. simpl in Ht.
  split; [rewrite Hrun; reflexivity|]. split; [rewrite Hrun; reflexivity|].
  intros st0 Hbefore.
  destruct (run_purchasing w st0 st Hbefore) as [(pre & Hpre & Hp1 & _) Hfull].
  rewrite Hfull, Hrun. split; [reflexivity|].
  exists (pre ++ [Info Purchasing] ++ evs ++
          [Start Destroy; Finish Destroy true] ++
          [Info (PurchaseFailed (toString (JsError name msg)))] ++
          [SetFailed msg] ++ [Exit 0]).
  split.
  - cbn [exit setFailed record snd trace]. rewrite Ht, Hpre, <- !app_assoc. reflexivity.
  - rewrite !List.filter_app, Hp1, Hnone. reflexivity.
Qed.

Lemma purchase_error_is_reported_once_witness :
  let w := worldWith (Ok tt) "" toyParser toyChecker (fun _ _ => Ok tt)
             (fun _ => Throw (JsError "Error" "sold out")) (fun _ => 0%nat) in
  (purchaseBody w (record [Info Purchasing] (storeOf []))).1
  = Throw (JsError "Error" "sold out") /\
  isOk (destroy w) = true /\
  (runPurchase w (storeOf [])).1 = Ok tt.
Proof.
  split; [reflexivity|]. split; [reflexivity|].
  apply (purchase_error_is_reported_once
           (worldWith (Ok tt) "" toyParser toyChecker (fun _ _ => Ok tt)
              (fun _ => Throw (JsError "Error" "sold out")) (fun _ => 0%nat))
           (storeOf []) "Error" "sold out"); reflexivity.
Defined.

(** X6: when the release of the session fails too, its failure replaces
    that of the purchase: [runPurchase] throws what [service.destroy]
    threw and reports nothing, and what the run reports, if anything, is
    the failure of the release; the failure of the purchase is reported
    nowhere. *)
Theorem release_failure_masks_purchase_failure
  (w : World) (st : state) (e e' : thrown) :
  (purchaseBody w (record [Info Purchasing] st)).1 = Throw e ->
  destroy w = Throw e' ->
  (runPurchase w st).1 = Throw e' /\
  forall st0,
    beforePurchase w st0 = (Ok tt, st) ->
    exists evs,
      trace (run w st0) = trace st0 ++ evs /\
      List.filter isFailureReport evs =
      if instanceofError e'
      then [Info (RunFailed (toString e')); SetFailed (message e')] else [].
Proof.
  intros Hthrow Hdestroy.
  destruct (purchaseBody_throws w _ _ Hthrow) as (_ & _ & evs & Ht & Hevs).
  assert (Hnone : List.filter isFailureReport evs = []).
  { eapply filter_none; [|exact Hevs]. intros ev H.
    apply negb_true_iff in H. apply orb_false_iff in H as [_ H]. exact H. }
  pose proof (runPurchase_cases w st) as Hrun.
  destruct (purchaseBody w (record [Info Purchasing] st)) as [[[]|e0] st1];
    [discriminate|].
  cbn zeta in Hrun. rewrite Hdestroy in Hrun. cbn [isOk] in Hrun. simpl in Ht.
  split; [rewrite Hrun; reflexivity|].
  intros st0 Hbefore.
  destruct (run_purchasing w st0 st Hbefore) as [(pre & Hpre & Hp1 & _) Hfull].
  rewrite Hfull, Hrun.
  destruct (instanceofError e').
  - exists (pre ++ [Info Purchasing] ++ evs ++
            [Start Destroy; Finish Destroy false] ++
            [Info (RunFailed (toString e')); SetFailed (message e')] ++ [Exit 0]).
    split.
    + cbn [exit record trace]. rewrite Ht, Hpre, <- !app_assoc. reflexivity.
    + rewrite !List.filter_app, Hp1, Hnone. reflexivity.
  - exists (pre ++ [Info Purchasing] ++ evs ++
            [Start Destroy; Finish Destroy false] ++ [Exit 0]).
    split.
    + cbn [exit record trace]. rewrite Ht, Hpre, <- !app_assoc. reflexivity.
    + rewrite !List.filter_app, Hp1, Hnone. reflexivity.
Qed.

Lemma release_failure_masks_purchase_failure_witness :
  let w := {| getInput := fun _ => ""; initLabels := Ok tt; listing := Ok tt;
              rankToLabel := fun _ => "lose"; marking := fun _ _ => Ok tt;
              creating := fun _ _ => Ok tt; installBrowser := Ok tt;
              newLottoService := Ok tt; signIn := fun _ _ => Ok tt;
              check := toyChecker;
              purchase := fun _ => Throw (JsError "Error" "sold out");
              getCheckWinningLink := fun _ _ => Ok "link";
              destroy := Throw (JsError "Error" "browser is gone");
              getCurrentLottoRound := Ok 1084; bodyParser := toyParser;
              bodyBuilder := fun _ _ _ _ => Ok "body"; today := "2023-06-13";
              schedule := fun _ => 0%nat |} in
  (purchaseBody w (record [Info Purchasing] (storeOf []))).1
  = Throw (JsError "Error" "sold out") /\
  destroy w = Throw (JsError "Error" "browser is gone") /\
  (runPurchase w (storeOf [])).1 = Throw (JsError "Error" "browser is gone").
Proof.
  split; [reflexivity|]. split; [reflexivity|].
  apply (release_failure_masks_purchase_failure
           {| getInput := fun _ => ""; initLabels := Ok tt; listing := Ok tt;
              rankToLabel := fun _ => "lose"; marking := fun _ _ => Ok tt;
              creating := fun _ _ => Ok tt; installBrowser := Ok tt;
              newLottoService := Ok tt; signIn := fun _ _ => Ok tt;
              check := toyChecker;
              purchase := fun _ => Throw (JsError "Error" "sold out");
              getCheckWinningLink := fun _ _ => Ok "link";
              destroy := Throw (JsError "Error" "browser is gone");
              getCurrentLottoRound := Ok 1084; bodyParser := toyParser;
              bodyBuilder := fun _ _ _ _ => Ok "body"; today := "2023-06-13";
              schedule := fun _ => 0%nat |}
           (storeOf []) (JsError "Error" "sold out")
           (JsError "Error" "browser is gone")); reflexivity.
Defined.

(** ** The checker and the failure signal *)

Section CheckerSilence.

Variable w : World.

Lemma allSettled_exitCode issues st :
  exitCode (allSettled w issues st).2 = exitCode st.
Proof.
  unfold allSettled.
  pose proof (startAll_grows w issues st) as H1.
  destruct (startAll w issues st) as [ps0 st1]. simpl in *.
  pose proof (resumeAll_grows w ps0 st1) as H2.
  destruct (resumeAll w ps0 st1) as [ps1 st2]. simpl in *.
  pose proof (eventLoop_grows w (turns ps1) ps1 st2) as H3.
  destruct (eventLoop w (turns ps1) ps1 st2) as [ps2 st3]. simpl in *.
  destruct (grows_trans _ _ _ _ (grows_trans _ _ _ _ H1 H2) H3) as (_ & A & _).
  exact A.
Qed.

Lemma runWinningCheck_exitCode st :
  exitCode (runWinningCheck w st).2 = exitCode st.
Proof.
  unfold runWinningCheck, bind, info, log, getWaitingIssues, await.
  destruct (listing w) as [[]|e]; [|reflexivity]. cbn -[allSettled Nat.ltb awaiting].
  destruct (0 <? length (awaiting (store st)))%nat; [|reflexivity].
  set (st1 := record [Info (CheckingCount _)] _).
  pose proof (allSettled_exitCode (awaiting (store st)) st1) as Hc.
  destruct (allSettled_outcomes w (awaiting (store st)) st1) as (results & Hres & _).
  destruct (allSettled w (awaiting (store st)) st1) as [r st2]. simpl in *. subst r.
  destruct (0 <? length (List.filter isRejected results))%nat; exact Hc.
Qed.

End CheckerSilence.

(** X7: whatever becomes of the tickets, the checker reports no failure
    of the run: it does not set the failure signal, leaves
    [process.exitCode] alone, does not exit and calls no operation of the
    purchase; the rejected pipelines are only counted in its log.  Unless
    the listing itself fails, it returns normally. *)
Theorem checker_reports_no_failure (w : World) (st : state) :
  exitCode (runWinningCheck w st).2 = exitCode st /\
  exited (runWinningCheck w st).2 = exited st /\
  (exists evs,
     trace (runWinningCheck w st).2 = trace st ++ evs /\
     List.filter isFailureReport evs = [] /\
     List.filter isPurchaseCall evs = []) /\
  (runWinningCheck w st).1 =
  match listing w with Ok _ => Ok tt | Throw e => Throw e end.
Proof.
  split; [apply runWinningCheck_exitCode|].
  destruct (runWinningCheck_advances w st) as [(evs & Ht & Hevs) Hx].
  split; [exact Hx|]. split.
  - exists evs. split; [exact Ht|]. split.
    + eapply filter_none; [|exact Hevs].
      intros [[]| | | | |[]|[]] H; try reflexivity; discriminate.
    + eapply filter_none; [|exact Hevs].
      intros [[]| | | | |[]|[]] H; try reflexivity; discriminate.
  - destruct (listing w) as [[]|e] eqn:Hl.
    + destruct (runWinningCheck_trace w st) as (? & ? & Heq & _).
      { rewrite Hl. reflexivity. }
      rewrite Heq. reflexivity.
    + rewrite (runWinningCheck_throws w st e Hl). reflexivity.
Qed.

(** ** The store after the checker *)

Lemma markChecked_skeleton n labels s :
  map skeleton (markChecked n labels s) = map skeleton s.
Proof.
  unfold markChecked. induction s as [|i s IH]; simpl; [reflexivity|].
  rewrite IH. destruct (number i =? n); reflexivity.
Qed.

Section Skeleton.

Variable w : World.

Lemma settle_skeleton j p st :
  map skeleton (store (settle w j p st).2) = map skeleton (store st).
Proof.
  destruct p as [n slots|n labels|o slots]; cbn -[resume].
  - destruct (slots !! j) as [[nums r| |]|]; try reflexivity.
    destruct (check w nums r) as [rank|e]; cbn -[resume]; [|reflexivity].
    rewrite resume_store. reflexivity.
  - unfold markIssueAsChecked. destruct (marking w n labels); simpl; [|reflexivity].
    apply markChecked_skeleton.
  - destruct (slots !! j) as [[nums r| |]|]; reflexivity.
Qed.

Lemma allSettled_skeleton issues st :
  map skeleton (store (allSettled w issues st).2) = map skeleton (store st).
Proof.
  unfold allSettled.
  pose proof (startAll_store w issues st) as H1.
  destruct (startAll w issues st) as [ps0 st1]. simpl in *.
  pose proof (resumeAll_store w ps0 st1) as H2.
  destruct (resumeAll w ps0 st1) as [ps1 st2]. simpl in *.
  pose proof (eventLoop_invariant w
                (fun _ st' => map skeleton (store st') = map skeleton (store st2))) as H3.
  specialize (H3 (fun ps' st' i j p H _ _ =>
                    eq_trans (settle_skeleton j p st') H) (turns ps1) ps1 st2 eq_refl).
  destruct (eventLoop w (turns ps1) ps1 st2) as [ps2 st3]. simpl in *. congruence.
Qed.

Lemma runWinningCheck_skeleton st :
  map skeleton (store (runWinningCheck w st).2) = map skeleton (store st).
Proof.
  unfold runWinningCheck, bind, info, log, getWaitingIssues, await.
  destruct (listing w) as [[]|e]; [|reflexivity]. cbn -[allSettled Nat.ltb awaiting].
  destruct (0 <? length (awaiting (store st)))%nat; [|reflexivity].
  set (st1 := record [Info (CheckingCount _)] _).
  pose proof (allSettled_skeleton (awaiting (store st)) st1) as Hs.
  destruct (allSettled_outcomes w (awaiting (store st)) st1) as (results & Hres & _).
  destruct (allSettled w (awaiting (store st)) st1) as [r st2]. simpl in *. subst r.
  destruct (0 <? length (List.filter isRejected results))%nat; exact Hs.
Qed.

End Skeleton.

Lemma skeleton_number s s' :
  map skeleton s' = map skeleton s -> map number s' = map number s.
Proof.
  intros H. apply (f_equal (map (fun t : Z * string * option string => t.1.1))) in H.
  rewrite !map_map in H. exact H.
Qed.

(** Two stores with the same tickets, status aside, are the same when
    the second has every ticket of the first in the status [f] gives. *)
Lemma store_from_status (f : issue -> lifecycle) s s' :
  NoDup (map number s) ->
  map skeleton s' = map skeleton s ->
  (forall i, i ∈ s -> statusOf (number i) s' = Some (f i)) ->
  s' = map (fun i => {| number := number i; title := title i; body := body i;
                        status := f i |}) s.
Proof.
  intros Hnd Hsk Hst.
  pose proof (skeleton_number s s' Hsk) as Hnum.
  apply list_eq. intros k. rewrite list_lookup_fmap.
  assert (Hk : skeleton <$> (s' !! k) = skeleton <$> (s !! k)).
  { rewrite <- !list_lookup_fmap. f_equal. exact Hsk. }
  destruct (s !! k) as [i|] eqn:Hi, (s' !! k) as [i'|] eqn:Hi'; simpl in *;
    try discriminate; [|reflexivity].
  inversion Hk as [Hski]. f_equal.
  assert (Hs' : statusOf (number i') s' = Some (status i')).
  { apply statusOf_elem; [rewrite Hnum; exact Hnd|].
    eapply list_elem_of_lookup_2; eauto. }
  assert (Hn : number i' = number i).
  { unfold skeleton in Hski. congruence. }
  rewrite Hn, (Hst i) in Hs' by (eapply list_elem_of_lookup_2; eauto).
  destruct i' as [n' t' b' s0']. unfold skeleton in Hski. simpl in *.
  inversion Hski. inversion Hs'. reflexivity.
Qed.

Lemma runWinningCheck_map (w : World) (st : state) :
  NoDup (map number (store st)) ->
  isOk (listing w) = true ->
  store (runWinningCheck w st).2 = map (restatus w) (store st).
Proof.
  intros Hnd Hl. unfold restatus.
  apply (store_from_status
           (fun i => if isAwaiting i then statusAfter (verdictOf w i) else status i)).
  - exact Hnd.
  - apply runWinningCheck_skeleton.
  - intros i Hi. apply runWinningCheck_store; assumption.
Qed.

(** X8: the checker neither adds nor removes a ticket and changes no
    id, date or body: the store it leaves is the store it found, with
    every awaiting ticket in the status of its own verdict and every
    other ticket as it was. *)
Theorem checker_changes_status_only (w : World) (st : state) :
  NoDup (map number (store st)) ->
  isOk (listing w) = true ->
  store (runWinningCheck w st).2 = map (restatus w) (store st).
Proof. apply runWinningCheck_map. Qed.

Lemma checker_changes_status_only_witness :
  store (runWinningCheck calm
           (storeOf [waiting 1 (Some "A"); waiting 2 (Some "B")])).2 =
  [{| number := 1; title := "2023-06-06"; body := Some "A";
      status := Checked ["5th"; "3rd"] |};
   waiting 2 (Some "B")].
Proof.
  apply (checker_changes_status_only calm
           (storeOf [waiting 1 (Some "A"); waiting 2 (Some "B")])
           (NoDup_numbers_2 (waiting 1 (Some "A")) (waiting 2 (Some "B"))
              ltac:(discriminate)) eq_refl).
Defined.

Lemma restatus_checked (w : World) (i : issue) :
  isAwaiting i = false -> restatus w i = i.
Proof.
  unfold restatus. intros H. rewrite H. destruct i. reflexivity.
Qed.

Lemma restatus_unmarked (w : World) (i : issue) :
  isMarked (verdictOf w i) = false -> restatus w i = i.
Proof.
  unfold restatus, isAwaiting. intros H. destruct i as [n t b s]. simpl.
  destruct s; [|reflexivity].
  destruct (verdictOf w _); [reflexivity|reflexivity|discriminate].
Qed.

Lemma awaiting_restatus (w : World) s :
  awaiting (map (restatus w) s) =
  List.filter (fun i => negb (isMarked (verdictOf w i))) (awaiting s).
Proof.
  unfold awaiting. induction s as [|i s IH]; simpl; [reflexivity|].
  destruct (isAwaiting i) eqn:Ha.
  - simpl. destruct (isMarked (verdictOf w i)) eqn:Hm; simpl.
    + replace (isAwaiting (restatus w i)) with false; [exact IH|].
      unfold restatus, isAwaiting. simpl. unfold isAwaiting in Ha. rewrite Ha.
      destruct (verdictOf w i); try discriminate. reflexivity.
    + rewrite (restatus_unmarked w i Hm), Ha, IH. reflexivity.
  - rewrite (restatus_checked w i Ha), Ha. exact IH.
Qed.

(** X9: the tickets still awaiting after the checker are the awaiting
    tickets it skipped or whose pipeline was rejected, in the order they
    had: a ticket it has marked is not listed again, and a ticket that
    failed is, for the next run. *)
Theorem awaiting_after_checker (w : World) (st : state) :
  NoDup (map number (store st)) ->
  isOk (listing w) = true ->
  awaiting (store (runWinningCheck w st).2) =
  List.filter (fun i => negb (isMarked (verdictOf w i))) (awaiting (store st)).
Proof.
  intros Hnd Hl. rewrite (runWinningCheck_map w st Hnd Hl). apply awaiting_restatus.
Qed.

Lemma awaiting_after_checker_witness :
  awaiting (store (runWinningCheck calm
                     (storeOf [waiting 1 (Some "A"); waiting 2 (Some "B")])).2) =
  [waiting 2 (Some "B")].
Proof.
  apply (awaiting_after_checker calm
           (storeOf [waiting 1 (Some "A"); waiting 2 (Some "B")])
           (NoDup_numbers_2 (waiting 1 (Some "A")) (waiting 2 (Some "B"))
              ltac:(discriminate)) eq_refl).
Defined.

(** X10: the transition to Checked is made once.  After a run of the
    checker, a second run, whatever the collaborators answer then, leaves
    every ticket that is not Awaiting as the first run left it, with the
    labels it had. *)
Theorem checked_tickets_are_not_checked_again (w w2 : World) (st : state) :
  NoDup (map number (store st)) ->
  isOk (listing w) = true ->
  isOk (listing w2) = true ->
  forall k i,
    store (runWinningCheck w st).2 !! k = Some i ->
    isAwaiting i = false ->
    store (runWinningCheck w2 (runWinningCheck w st).2).2 !! k = Some i.
Proof.
  intros Hnd Hl Hl2 k i Hk Ha.
  rewrite (runWinningCheck_map w2).
  - rewrite list_lookup_fmap, Hk. simpl. rewrite (restatus_checked w2 i Ha). reflexivity.
  - rewrite (skeleton_number _ _ (runWinningCheck_skeleton w st)). exact Hnd.
  - exact Hl2.
Qed.

Lemma checked_tickets_are_not_checked_again_witness :
  let w2 := worldWith (Ok tt) "" toyParser (fun _ _ => Ok 1) (fun _ _ => Ok tt)
              toyBuyer (fun _ => 0%nat) in
  store (runWinningCheck w2
           (runWinningCheck calm (storeOf [waiting 1 (Some "A"); waiting 2 (Some "B")])).2).2
  !! 0%nat =
  Some {| number := 1; title := "2023-06-06"; body := Some "A";
          status := Checked ["5th"; "3rd"] |}.
Proof.
  apply (checked_tickets_are_not_checked_again calm
           (worldWith (Ok tt) "" toyParser (fun _ _ => Ok 1) (fun _ _ => Ok tt)
              toyBuyer (fun _ => 0%nat))
           (storeOf [waiting 1 (Some "A"); waiting 2 (Some "B")])
           (NoDup_numbers_2 (waiting 1 (Some "A")) (waiting 2 (Some "B"))
              ltac:(discriminate)) eq_refl eq_refl 0%nat); reflexivity.
Defined.

(** ** The order of completion *)

Lemma ranksFor_reschedule sched (w : World) numbers round :
  ranksFor (reschedule sched w) numbers round = ranksFor w numbers round.
Proof.
  induction numbers as [|n numbers IH]; simpl; [reflexivity|].
  rewrite IH. reflexivity.
Qed.

Lemma verdictOf_reschedule sched (w : World) i :
  verdictOf (reschedule sched w) i = verdictOf w i.
Proof.
  unfold verdictOf. destruct (truthyBody i) as [text|]; [|reflexivity]. simpl.
  destruct (bodyParser w text) as [[numbers round]|e]; [|reflexivity].
  rewrite ranksFor_reschedule. reflexivity.
Qed.

(** X11: what the checker makes of the store, and the number of
    failures it logs, do not depend on the order in which the checks and
    the store updates complete. *)
Theorem checker_outcome_is_schedule_independent
  (w : World) (sched : nat -> nat) (st : state) :
  NoDup (map number (store st)) ->
  isOk (listing w) = true ->
  store (runWinningCheck (reschedule sched w) st).2 = store (runWinningCheck w st).2 /\
  (runWinningCheck (reschedule sched w) st).1 = (runWinningCheck w st).1 /\
  List.filter (fun e => negb (fanOutEvent e)) (trace (runWinningCheck (reschedule sched w) st).2)
  = List.filter (fun e => negb (fanOutEvent e)) (trace (runWinningCheck w st).2).
Proof.
  intros Hnd Hl.
  assert (Hl' : isOk (listing (reschedule sched w)) = true) by exact Hl.
  split; [|split].
  - rewrite (runWinningCheck_map w st Hnd Hl),
      (runWinningCheck_map (reschedule sched w) st Hnd Hl').
    apply map_ext. intros i. unfold restatus. rewrite verdictOf_reschedule. reflexivity.
  - destruct (runWinningCheck_trace w st Hl) as (? & ? & -> & _).
    destruct (runWinningCheck_trace (reschedule sched w) st Hl') as (? & ? & -> & _).
    reflexivity.
  - destruct (runWinningCheck_trace w st Hl) as (evs & st1 & Heq & Hevs & Ht & _).
    destruct (runWinningCheck_trace (reschedule sched w) st Hl')
      as (evs' & st1' & Heq' & Hevs' & Ht' & _).
    rewrite Heq, Heq'. simpl. rewrite Ht, Ht', !List.filter_app. f_equal.
    assert (Hf : failures (reschedule sched w) (awaiting (store st))
                 = failures w (awaiting (store st))).
    { unfold failures. f_equal. apply List.filter_ext. intros i.
      rewrite verdictOf_reschedule. reflexivity. }
    assert (Hnone : forall l, forallb fanOutEvent l = true ->
                              List.filter (fun e => negb (fanOutEvent e)) l = []).
    { intros l. apply filter_none. intros e ->. reflexivity. }
    unfold checkerTrace. rewrite Hf.
    destruct (awaiting (store st)) as [|i issues]; [reflexivity|].
    simpl. rewrite !List.filter_app, (Hnone _ Hevs), (Hnone _ Hevs'). reflexivity.
Qed.

Lemma checker_outcome_is_schedule_independent_witness :
  store (runWinningCheck (reschedule (fun k => k) calm)
           (storeOf [waiting 1 (Some "A"); waiting 3 (Some "C")])).2 =
  store (runWinningCheck calm
           (storeOf [waiting 1 (Some "A"); waiting 3 (Some "C")])).2.
Proof.
  apply (checker_outcome_is_schedule_independent calm (fun k => k)
           (storeOf [waiting 1 (Some "A"); waiting 3 (Some "C")])
           (NoDup_numbers_2 (waiting 1 (Some "A")) (waiting 3 (Some "C"))
              ltac:(discriminate)) eq_refl).
Defined.

(** ** The calls of the fan-out *)

Section FanOutCalls.

Variable w : World.

Lemma startPipeline_trace i st :
  trace (startPipeline w i st).2 = trace st ++ startTrace w i.
Proof.
  unfold startPipeline, startTrace, truthyBody.
  destruct (body i) as [text|]; [|rewrite app_nil_r; reflexivity].
  destruct (String.eqb text ""); [rewrite app_nil_r; reflexivity|].
  destruct (bodyParser w text) as [[numbers round]|e]; simpl;
    rewrite <- ?app_assoc; reflexivity.
Qed.

Lemma startAll_trace issues st :
  trace (startAll w issues st).2 = trace st ++ flat_map (startTrace w) issues.
Proof.
  revert st. induction issues as [|i issues IH]; intros st; simpl;
    [rewrite app_nil_r; reflexivity|].
  pose proof (startPipeline_trace i st) as H1.
  destruct (startPipeline w i st) as [p st1]. specialize (IH st1).
  destruct (startAll w issues st1) as [ps st2]. simpl in *.
  rewrite IH, H1, <- app_assoc. reflexivity.
Qed.

Lemma resume_later p st : grows settleEvent st (resume w p st).2.
Proof.
  destruct p as [n slots|n labels|o slots]; simpl; try apply grows_refl.
  destruct (ranksOf slots); simpl; [|apply grows_refl].
  apply grows_record. reflexivity.
Qed.

Lemma settle_later j p st : grows settleEvent st (settle w j p st).2.
Proof.
  destruct p as [n slots|n labels|o slots]; cbn -[resume].
  - destruct (slots !! j) as [[nums r| |]|]; try apply grows_refl.
    destruct (check w nums r) as [rank|e]; cbn -[resume].
    + eapply grows_trans; [|apply resume_later]. apply grows_record. reflexivity.
    + apply grows_record. reflexivity.
  - unfold markIssueAsChecked. destruct (marking w n labels); simpl.
    + eapply grows_trans; [|apply grows_setStore]. apply grows_record. reflexivity.
    + apply grows_record. reflexivity.
  - destruct (slots !! j) as [[nums r| |]|]; try apply grows_refl.
    apply grows_record. reflexivity.
Qed.

Lemma resumeAll_later ps st : grows settleEvent st (resumeAll w ps st).2.
Proof.
  revert st. induction ps as [|p ps IH]; intros st; simpl; [apply grows_refl|].
  pose proof (resume_later p st) as H1.
  destruct (resume w p st) as [p1 st1]. specialize (IH st1).
  destruct (resumeAll w ps st1) as [ps1 st2]. simpl in *.
  eapply grows_trans; eauto.
Qed.

Lemma eventLoop_later fuel ps st :
  grows settleEvent st (eventLoop w fuel ps st).2.
Proof.
  apply (eventLoop_invariant w (fun _ st' => grows settleEvent st st'));
    [|apply grows_refl].
  intros ps' st' i j p H _ _. eapply grows_trans; [exact H|apply settle_later].
Qed.

(** The fan-out first runs every pipeline to its first suspension, and
    only then sees operations settle. *)
Lemma allSettled_trace issues st :
  exists later,
    trace (allSettled w issues st).2 =
    trace st ++ flat_map (startTrace w) issues ++ later /\
    forallb settleEvent later = true.
Proof.
  unfold allSettled.
  pose proof (startAll_trace issues st) as H1.
  destruct (startAll w issues st) as [ps0 st1]. simpl in *.
  pose proof (resumeAll_later ps0 st1) as H2.
  destruct (resumeAll w ps0 st1) as [ps1 st2]. simpl in *.
  pose proof (eventLoop_later (turns ps1) ps1 st2) as H3.
  destruct (eventLoop w (turns ps1) ps1 st2) as [ps2 st3]. simpl in *.
  destruct (grows_trans _ _ _ _ H2 H3) as [(later & Ht & Hl) _].
  exists later. rewrite Ht, H1, <- app_assoc. auto.
Qed.

Lemma filter_startTrace issues :
  List.filter startEvent (flat_map (startTrace w) issues)
  = flat_map (startTrace w) issues.
Proof.
  induction issues as [|i issues IH]; simpl; [reflexivity|].
  rewrite List.filter_app, IH. f_equal.
  unfold startTrace. destruct (truthyBody i) as [text|]; [|reflexivity]. simpl.
  f_equal. destruct (bodyParser w text) as [[numbers round]|e]; [|reflexivity].
  induction numbers as [|n numbers IHn]; simpl; [reflexivity|]. rewrite IHn. reflexivity.
Qed.

Lemma settled_orphans ps :
  forallb settled ps = true -> forallb isCheckCall (flat_map orphansOf ps) = true.
Proof.
  induction ps as [|p ps IH]; simpl; [reflexivity|]. intros H.
  apply andb_true_iff in H as [Hp Hps]. rewrite forallb_app, (IH Hps), andb_true_r.
  destruct p as [| |o slots]; try discriminate. simpl. clear Hp.
  induction slots as [|s slots IHs]; simpl; [reflexivity|].
  destruct s; simpl; exact IHs.
Qed.

Lemma allSettled_orphans issues st :
  exists cs, inflight (allSettled w issues st).2 = inflight st ++ cs /\
             forallb isCheckCall cs = true.
Proof.
  unfold allSettled.
  pose proof (startAll_begun w issues st) as Hbegun.
  pose proof (startAll_grows w issues st) as H1.
  destruct (startAll w issues st) as [ps0 st1]. simpl in *.
  pose proof (resumeAll_good w issues ps0 st1 Hbegun) as Hgood.
  pose proof (resumeAll_grows w ps0 st1) as H2.
  destruct (resumeAll w ps0 st1) as [ps1 st2]. simpl in *.
  pose proof (eventLoop_settles w (turns ps1) ps1 st2) as Hsettled.
  pose proof (eventLoop_grows w (turns ps1) ps1 st2) as H3.
  destruct (eventLoop w (turns ps1) ps1 st2) as [ps2 st3]. simpl in *.
  exists (flat_map orphansOf ps2). split.
  - destruct H1 as (_ & _ & _ & E1). destruct H2 as (_ & _ & _ & E2).
    destruct H3 as (_ & _ & _ & E3). congruence.
  - apply settled_orphans, Hsettled; [|lia].
    apply Forall_lookup_2. intros k p Hk.
    destruct (Forall2_lookup_r _ _ _ _ _ Hgood Hk) as (i & _ & Hg).
    eapply good_ready; eauto.
Qed.

End FanOutCalls.

(** X12: the checker decodes the body of every awaiting ticket that has
    one, once, and calls [service.check] once for every combination of
    every ticket that decodes, in the order of the tickets and of their
    combinations and before any operation of the fan-out settles: no
    failure, of a decoding or of a check, keeps another check from being
    called. *)
Theorem every_combination_is_checked (w : World) (st : state) :
  isOk (listing w) = true ->
  exists pre later,
    trace (runWinningCheck w st).2 =
    trace st ++ pre ++ flat_map (startTrace w) (awaiting (store st)) ++ later /\
    List.filter fanOutEvent pre = [] /\
    List.filter startEvent later = [].
Proof.
  intros Hl. unfold runWinningCheck, bind, info, log, getWaitingIssues, await.
  destruct (listing w) as [[]|e]; [|discriminate]. cbn -[allSettled Nat.ltb awaiting].
  destruct (awaiting (store st)) as [|i0 issues] eqn:Hissues.
  - exists [Info CheckingResults; Start GetWaitingIssues;
            Finish GetWaitingIssues true; Info NothingToCheck], [].
    simpl. rewrite <- !app_assoc. auto.
  - change (0 <? length (i0 :: issues))%nat with true. cbn beta iota.
    set (st1 := record [Info (CheckingCount _)] _).
    destruct (allSettled_outcomes w (i0 :: issues) st1) as (results & Hres & _).
    destruct (allSettled_trace w (i0 :: issues) st1) as (later & Ht & Hlater).
    destruct (allSettled w (i0 :: issues) st1) as [r st2]. simpl in Hres. subst r.
    assert (Hnone : List.filter startEvent later = []).
    { eapply filter_none; [|exact Hlater].
      intros [[]| | | | |[]|[]] H; try reflexivity; discriminate. }
    simpl in Ht.
    exists [Info CheckingResults; Start GetWaitingIssues;
            Finish GetWaitingIssues true;
            Info (CheckingCount (S (length issues)))].
    destruct (0 <? length (List.filter isRejected results))%nat; simpl.
    + exists (later ++ [Info (CheckErrors (length (List.filter isRejected results)))]).
      split; [rewrite Ht; simpl; rewrite <- !app_assoc; simpl; reflexivity|].
      split; [reflexivity|].
      rewrite List.filter_app, Hnone. reflexivity.
    + exists later.
      split; [rewrite Ht; simpl; rewrite <- !app_assoc; simpl; reflexivity|].
      split; [reflexivity|exact Hnone].
Qed.

Lemma every_combination_is_checked_witness :
  exists pre later,
    trace (runWinningCheck calm
             (storeOf [waiting 3 (Some "C"); waiting 2 (Some "B");
                       waiting 1 (Some "A")])).2 =
    [] ++ pre ++
    [BodyParser "C"; Start (Check [0; 1] 1084); Start (Check [7; 2] 1084);
     BodyParser "B";
     BodyParser "A"; Start (Check [5; 11] 1084); Start (Check [5; 12] 1084);
     Start (Check [3; 13] 1084)] ++ later /\
    List.filter fanOutEvent pre = [] /\
    List.filter startEvent later = [].
Proof.
  apply (every_combination_is_checked calm
           (storeOf [waiting 3 (Some "C"); waiting 2 (Some "B"); waiting 1 (Some "A")])
           eq_refl).
Defined.

(** X13: what the checker leaves in flight on its return are calls of
    [service.check] only: every update of the store it has called has
    settled before the purchase phase creates a ticket. *)
Theorem checker_leaves_no_store_update_in_flight (w : World) (st : state) :
  exists cs,
    inflight (runWinningCheck w st).2 = inflight st ++ cs /\
    forallb isCheckCall cs = true.
Proof.
  unfold runWinningCheck, bind, info, log, getWaitingIssues, await.
  destruct (listing w) as [[]|e];
    [|exists []; rewrite app_nil_r; split; reflexivity].
  cbn -[allSettled Nat.ltb awaiting].
  destruct (0 <? length (awaiting (store st)))%nat;
    [|exists []; rewrite app_nil_r; split; reflexivity].
  set (st1 := record [Info (CheckingCount _)] _).
  destruct (allSettled_orphans w (awaiting (store st)) st1) as (cs & Hcs & Hall).
  destruct (allSettled_outcomes w (awaiting (store st)) st1) as (results & Hres & _).
  destruct (allSettled w (awaiting (store st)) st1) as [r st2]. simpl in *. subst r.
  exists cs. split; [|exact Hall].
  destruct (0 <? length (List.filter isRejected results))%nat; exact Hcs.
Qed.

(** ** The calls of the store update *)

Section Marks.

Variable w : World.

Lemma issued_insert issues ps k i p p1 new :
  issues !! k = Some i -> ps !! k = Some p ->
  issuedBy w i p1 = new ++ issuedBy w i p ->
  Permutation (issued w issues (<[k := p1]> ps)) (new ++ issued w issues ps).
Proof.
  revert ps k. induction issues as [|i0 issues IH]; intros ps k Hi Hp Hnew;
    [discriminate|].
  destruct ps as [|p0 ps]; [discriminate|].
  destruct k as [|k]; simpl in *.
  - inversion Hi; subst i0. inversion Hp; subst p0.
    rewrite Hnew, <- app_assoc. reflexivity.
  - rewrite (IH ps k Hi Hp Hnew).
    rewrite !app_assoc. apply Permutation_app_tail, Permutation_app_comm.
Qed.

Lemma issued_settled issues ps :
  Forall2 (good w) issues ps -> forallb settled ps = true ->
  issued w issues ps = flat_map (markOf w) issues.
Proof.
  induction 1 as [|i p issues ps _ _ IH]; simpl; [reflexivity|]. intros H.
  apply andb_true_iff in H as [Hp Hps]. rewrite (IH Hps).
  destruct p; try discriminate. reflexivity.
Qed.

(** What a pipeline that resumes adds to the calls of the store update. *)
Lemma resume_issued i p st :
  begun w i p ->
  exists es, trace (resume w p st).2 = trace st ++ es /\
             issuedBy w i (resume w p st).1 = List.filter isMarkStart es.
Proof.
  unfold begun, issuedBy, markOf.
  destruct (truthyBody i) as [text|];
    [|intros ->; exists []; rewrite app_nil_r; split; reflexivity].
  destruct (bodyParser w text) as [[numbers round]|e];
    [|intros ->; exists []; rewrite app_nil_r; split; reflexivity].
  intros ->. simpl. rewrite ranksOf_pending. destruct numbers as [|n numbers]; simpl.
  - eexists. split; reflexivity.
  - exists []. rewrite app_nil_r. split; reflexivity.
Qed.

Lemma resumeAll_issued issues ps st :
  Forall2 (begun w) issues ps ->
  exists es, trace (resumeAll w ps st).2 = trace st ++ es /\
             issued w issues (resumeAll w ps st).1 = List.filter isMarkStart es.
Proof.
  intros H. revert st. induction H as [|i p issues ps Hb _ IH]; intros st; simpl.
  - exists []. rewrite app_nil_r. split; reflexivity.
  - destruct (resume_issued i p st Hb) as (es1 & Ht1 & Hi1).
    destruct (resume w p st) as [p1 st1]. destruct (IH st1) as (es2 & Ht2 & Hi2).
    destruct (resumeAll w ps st1) as [ps1 st2]. simpl in *.
    exists (es1 ++ es2). rewrite Ht2, Ht1, <- app_assoc. split; [reflexivity|].
    rewrite List.filter_app, Hi1, Hi2. reflexivity.
Qed.

(** What a settling adds to the calls of the store update. *)
Lemma settle_issued i p j st :
  good w i p -> j ∈ callsOf p ->
  exists es, trace (settle w j p st).2 = trace st ++ es /\
             issuedBy w i (settle w j p st).1
             = List.filter isMarkStart es ++ issuedBy w i p.
Proof.
  unfold good, issuedBy, markOf.
  destruct (truthyBody i) as [text|];
    [|intros -> Hj; simpl in Hj; inversion Hj].
  destruct (bodyParser w text) as [[numbers round]|e];
    [|intros -> Hj; simpl in Hj; inversion Hj].
  destruct p as [n slots|n labels|o slots]; simpl.
  - intros (-> & Hs & Hr) Hj.
    apply elem_of_pending in Hj as (nums & r & Hj). rewrite Hj.
    destruct (Forall2_lookup_r _ _ _ _ _ Hs Hj) as (nums' & Hn & Hslot).
    destruct Hslot as [Heq|(rank & Heq & _)]; [|discriminate].
    inversion Heq; subst nums' r.
    destruct (check w nums round) as [rank|e] eqn:Hc; simpl.
    + assert (Hs' : Forall2 (slotFor w round) numbers (<[j := Got rank]> slots)).
      { rewrite <- (list_insert_id numbers j nums Hn).
        apply Forall2_insert; [exact Hs|]. right. eauto. }
      destruct (ranksOf (<[j := Got rank]> slots)) as [ranks|] eqn:Hranks; simpl.
      * rewrite (ranks_agree w round numbers _ ranks Hs' Hranks).
        eexists. rewrite <- app_assoc. split; reflexivity.
      * eexists. split; reflexivity.
    + rewrite (ranksFor_throws w round numbers j nums e Hn Hc).
      eexists. split; reflexivity.
  - intros _ _. unfold markIssueAsChecked.
    destruct (marking w n labels) as [[]|e]; simpl; eexists; split; reflexivity.
  - intros _ Hj. apply elem_of_pending in Hj as (nums & r & Hj). rewrite Hj. simpl.
    eexists. split; reflexivity.
Qed.

Lemma allSettled_marks issues st :
  exists evs,
    trace (allSettled w issues st).2 = trace st ++ evs /\
    Permutation (List.filter isMarkStart evs) (flat_map (markOf w) issues).
Proof.
  unfold allSettled.
  pose proof (startAll_begun w issues st) as Hbegun.
  pose proof (startAll_trace w issues st) as Ht0.
  destruct (startAll w issues st) as [ps0 st1]. simpl in *.
  pose proof (resumeAll_good w issues ps0 st1 Hbegun) as Hgood.
  destruct (resumeAll_issued issues ps0 st1 Hbegun) as (es1 & Ht1 & Hi1).
  destruct (resumeAll w ps0 st1) as [ps1 st2]. simpl in *.
  assert (Hinv : Forall2 (good w) issues (eventLoop w (turns ps1) ps1 st2).1 /\
                 exists es, trace (eventLoop w (turns ps1) ps1 st2).2 = trace st2 ++ es /\
                            Permutation (issued w issues (eventLoop w (turns ps1) ps1 st2).1)
                              (List.filter isMarkStart es ++ issued w issues ps1)).
  { apply (eventLoop_invariant w
             (fun ps' st' =>
                Forall2 (good w) issues ps' /\
                exists es, trace st' = trace st2 ++ es /\
                           Permutation (issued w issues ps')
                             (List.filter isMarkStart es ++ issued w issues ps1))).
    - intros ps' st' k j p [Hg (es & Ht & Hperm)] Hk Hj.
      destruct (Forall2_lookup_r _ _ _ _ _ Hg Hk) as (i & Hi & Hgi). split.
      + rewrite <- (list_insert_id issues k i Hi).
        apply Forall2_insert; [exact Hg|]. apply settle_good; assumption.
      + destruct (settle_issued i p j st' Hgi Hj) as (es' & Ht' & Hi').
        exists (es ++ es'). rewrite Ht', Ht, <- app_assoc. split; [reflexivity|].
        rewrite (issued_insert issues ps' k i p _ _ Hi Hk Hi'), Hperm.
        rewrite List.filter_app, !app_assoc.
        apply Permutation_app_tail, Permutation_app_comm.
    - split; [exact Hgood|]. exists []. rewrite app_nil_r. split; reflexivity. }
  pose proof (eventLoop_settles w (turns ps1) ps1 st2) as Hsettled.
  destruct (eventLoop w (turns ps1) ps1 st2) as [ps2 st3]. simpl in *.
  destruct Hinv as [Hgood2 (es2 & Ht2 & Hperm)].
  assert (Hs : forallb settled ps2 = true).
  { apply Hsettled; [|lia]. apply Forall_lookup_2. intros k p Hk.
    destruct (Forall2_lookup_r _ _ _ _ _ Hgood Hk) as (i & _ & Hg).
    eapply good_ready; eauto. }
  rewrite (issued_settled issues ps2 Hgood2 Hs) in Hperm.
  exists (flat_map (startTrace w) issues ++ es1 ++ es2).
  rewrite Ht2, Ht1, Ht0, <- !app_assoc. split; [reflexivity|].
  rewrite !List.filter_app.
  assert (Hnone : List.filter isMarkStart (flat_map (startTrace w) issues) = []).
  { eapply (filter_none startEvent).
    - intros [[]| | | | |[]|[]] H; try reflexivity; discriminate.
    - rewrite <- (filter_startTrace w issues). apply forallb_forall.
      intros e He. apply filter_In in He as [_ He]. exact He. }
  rewrite Hnone. simpl. rewrite Hperm, <- Hi1. apply Permutation_app_comm.
Qed.

End Marks.

(** X14: the checker calls the store update once for every awaiting
    ticket whose body decodes and whose checks all resolve, with the
    labels of its ranks, and for no other ticket: never for a ticket one
    of whose checks failed, and never twice for a ticket. *)
Theorem store_update_once_per_checked_ticket (w : World) (st : state) :
  isOk (listing w) = true ->
  exists evs,
    trace (runWinningCheck w st).2 = trace st ++ evs /\
    Permutation (List.filter isMarkStart evs)
      (flat_map (markOf w) (awaiting (store st))).
Proof.
  intros Hl. unfold runWinningCheck, bind, info, log, getWaitingIssues, await.
  destruct (listing w) as [[]|e]; [|discriminate]. cbn -[allSettled Nat.ltb awaiting].
  destruct (awaiting (store st)) as [|i0 issues] eqn:Hissues.
  - eexists. simpl. rewrite <- !app_assoc. split; reflexivity.
  - change (0 <? length (i0 :: issues))%nat with true. cbn beta iota.
    set (st1 := record [Info (CheckingCount _)] _).
    destruct (allSettled_outcomes w (i0 :: issues) st1) as (results & Hres & _).
    destruct (allSettled_marks w (i0 :: issues) st1) as (evs & Ht & Hperm).
    destruct (allSettled w (i0 :: issues) st1) as [r st2]. simpl in Hres. subst r.
    simpl in Ht.
    destruct (0 <? length (List.filter isRejected results))%nat; simpl.
    + exists ([Info CheckingResults; Start GetWaitingIssues;
               Finish GetWaitingIssues true;
               Info (CheckingCount (S (length issues)))] ++ evs ++
              [Info (CheckErrors (length (List.filter isRejected results)))]).
      split; [rewrite Ht; simpl; rewrite <- !app_assoc; simpl; reflexivity|].
      rewrite !List.filter_app. simpl. rewrite app_nil_r. exact Hperm.
    + exists ([Info CheckingResults; Start GetWaitingIssues;
               Finish GetWaitingIssues true;
               Info (CheckingCount (S (length issues)))] ++ evs).
      split; [rewrite Ht; simpl; rewrite <- !app_assoc; simpl; reflexivity|].
      rewrite !List.filter_app. simpl. exact Hperm.
Qed.

Lemma store_update_once_per_checked_ticket_witness :
  exists evs,
    trace (runWinningCheck calm
             (storeOf [waiting 3 (Some "C"); waiting 4 (Some "Z");
                       waiting 1 (Some "A")])).2 = [] ++ evs /\
    Permutation (List.filter isMarkStart evs)
      [Start (MarkIssueAsChecked 4 []);
       Start (MarkIssueAsChecked 1 ["5th"; "3rd"])].
Proof.
  apply (store_update_once_per_checked_ticket calm
           (storeOf [waiting 3 (Some "C"); waiting 4 (Some "Z"); waiting 1 (Some "A")])
           eq_refl).
Defined.

(** ** A run in which nothing fails *)

Lemma bootstrap_exitCode (w : World) (st : state) :
  exitCode (bootstrap w st).2 = exitCode st.
Proof.
  unfold bootstrap, bind. rewrite runInitRepo_cases.
  destruct (initLabels w) as [[]|e0]; [|reflexivity].
  destruct (runActionsEnvironments_grows w
              (record [Start InitLabels; Finish InitLabels (isOk (Ok ()))] st))
    as (_ & Hc & _). exact Hc.
Qed.

Lemma nextNumber_restatus (w : World) s :
  nextNumber (map (restatus w) s) = nextNumber s.
Proof.
  unfold nextNumber. rewrite map_map. reflexivity.
Qed.

(** X15: when the bootstrap, the listing and the purchase sequence
    succeed, the store the run leaves is the store it found with every
    awaiting ticket in the status of its verdict, followed by the one
    ticket purchased, Awaiting; no failure is reported, whatever the
    number of tickets whose pipeline was rejected, the session is not
    released, and the process exits with status 0. *)
Theorem successful_run_checks_then_records
  (w : World) (st : state) (numbers : list combination) (current : Z)
  (link issueBody : string) :
  (bootstrap w st).1 = Ok tt ->
  NoDup (map number (store st)) ->
  isOk (listing w) = true ->
  purchase w (purchaseAmount w) = Ok numbers ->
  getCurrentLottoRound w = Ok current ->
  getCheckWinningLink w (current + 1) numbers = Ok link ->
  bodyBuilder w (today w) (current + 1) numbers link = Ok issueBody ->
  isOk (creating w (today w) issueBody) = true ->
  store (run w st) =
  map (restatus w) (store st) ++
  [{| number := nextNumber (store st); title := today w;
      body := Some issueBody; status := Awaiting |}] /\
  exitCode (run w st) = exitCode st /\
  exited (run w st) = Some 0 /\
  exists evs,
    trace (run w st) = trace st ++ evs /\
    List.filter isFailureReport evs = [] /\
    List.filter isRelease evs = [].
Proof.
  intros Hboot Hnd Hl Hp Hr Hk Hb Hc.
  pose proof (bootstrap_store w st) as Hs1.
  pose proof (bootstrap_exitCode w st) as Hc1.
  pose proof (beforePurchase_bootstrap w st) as Hbefore.
  destruct (bootstrap w st) as [[[]|e0] st1]; [|discriminate]. simpl in Hs1, Hc1.
  assert (Hnd1 : NoDup (map number (store st1))) by (rewrite Hs1; exact Hnd).
  pose proof (runWinningCheck_map w st1 Hnd1 Hl) as Hs2.
  pose proof (runWinningCheck_exitCode w st1) as Hc2.
  destruct (runWinningCheck_trace w st1 Hl) as (? & st2 & Heq & _).
  rewrite Heq in Hbefore, Hs2, Hc2. simpl in Hs2, Hc2.
  destruct (run_purchasing w st st2 Hbefore) as [(pre & Hpre & Hp1 & _ & Hp3) Hfull].
  destruct (runPurchase_success w st2 numbers current link issueBody Hp Hr Hk Hb Hc)
    as (Hok & Hs3 & Hc3 & evs & Ht & _ & Hrep & Hrel).
  rewrite Hfull. destruct (runPurchase w st2) as [[[]|e] st3]; [|discriminate].
  simpl in Hs3, Hc3, Ht |- *.
  split; [rewrite Hs3, Hs2, Hs1, nextNumber_restatus; reflexivity|].
  split; [congruence|]. split; [reflexivity|].
  exists (pre ++ evs ++ [Exit 0]). rewrite Ht, Hpre, <- !app_assoc.
  split; [reflexivity|].
  rewrite !List.filter_app, Hp1, Hp3, Hrep, Hrel. auto.
Qed.

Lemma successful_run_checks_then_records_witness :
  store (run calm (storeOf [waiting 1 (Some "A"); waiting 2 (Some "B")])) =
  [{| number := 1; title := "2023-06-06"; body := Some "A";
      status := Checked ["5th"; "3rd"] |};
   waiting 2 (Some "B");
   {| number := 3; title := "2023-06-13"; body := Some "body"; status := Awaiting |}].
Proof.
  apply (successful_run_checks_then_records calm
           (storeOf [waiting 1 (Some "A"); waiting 2 (Some "B")])
           [[1; 2; 3; 4; 5; 6]] 1084 "link" "body" eq_refl
           (NoDup_numbers_2 (waiting 1 (Some "A")) (waiting 2 (Some "B"))
              ltac:(discriminate))
           eq_refl eq_refl eq_refl eq_refl eq_refl eq_refl).
Defined.
